(** * TerraChallenge: the FIRMS fetch-and-assemble tools

    A shallow embedding of the two command-line tools that build the monthly
    fire-detection collections:

    - the batch-import tool (module [Ingest]), which reads local files,
      filters rows by bounding box and buckets them by acquisition month;
    - the prebake tool (module [Prebake]), which plans request windows for a
      month, fetches each window from the area API with retry and backoff,
      deduplicates the features and decides whether to write the month file.

    JavaScript numbers are modelled by their value (a rational, or one of
    NaN, +Infinity, -Infinity); every finite double is a rational, so the
    comparisons below are the ones the code performs.  The two built-in
    conversions that depend on the binary representation, [Number(string)]
    and [String(number)], are taken as an interface ([Builtins]). *)

From Stdlib Require Import QArith Qround Qabs Ascii Lqa.
From stdpp Require Import base gmap strings list pretty.

Open Scope Z_scope.

#[local] Set Warnings "-clear-no-such-hyp".

(** ** JavaScript numbers and values *)

Inductive number :=
  | NaN
  | PosInf
  | NegInf
  | Fin (q : Q).

(** [Number.isFinite] *)
Definition isFinite (x : number) : bool :=
  match x with Fin _ => true | _ => false end.

(** [a <= b]: false as soon as one side is NaN. *)
Definition num_le (a b : number) : bool :=
  match a, b with
  | NaN, _ | _, NaN => false
  | NegInf, _ => true
  | _, PosInf => true
  | Fin x, Fin y => Qle_bool x y
  | _, _ => false
  end.

(** [a >= b] *)
Definition num_ge (a b : number) : bool := num_le b a.

(** The order of the extended reals, on which NaN is unrelated to everything;
    stated independently of [num_le]. *)
Inductive le_number : number -> number -> Prop :=
  | le_fin x y : (x <= y)%Q -> le_number (Fin x) (Fin y)
  | le_neginf b : b <> NaN -> le_number NegInf b
  | le_posinf a : a <> NaN -> le_number a PosInf.

(** A cell of a parsed row or a property of a feature: a string or a number.
    A field that is [undefined] is an absent key. *)
Inductive value :=
  | Str (s : string)
  | Num (n : number).

Abbreviation obj := (gmap string value).

Class Builtins := {
  (** [Number(s)] for a string [s] *)
  StringToNumber : string -> number;
  (** [String(x)] for a finite number [x] *)
  FiniteToString : Q -> string
}.

Section Conversions.
Context {B : Builtins}.

(** [Number(v)] *)
Definition Number (v : option value) : number :=
  match v with
  | None => NaN
  | Some (Str s) => StringToNumber s
  | Some (Num n) => n
  end.

(** [String(x)] for a number *)
Definition NumberToString (x : number) : string :=
  match x with
  | NaN => "NaN"
  | PosInf => "Infinity"
  | NegInf => "-Infinity"
  | Fin q => FiniteToString q
  end.

(** The text a template literal substitutes for [v]. *)
Definition ToString (v : option value) : string :=
  match v with
  | None => "undefined"
  | Some (Str s) => s
  | Some (Num n) => NumberToString n
  end.
End Conversions.

(** Truthiness of a value *)
Definition truthy (v : option value) : bool :=
  match v with
  | None => false
  | Some (Str s) => negb (String.eqb s "")
  | Some (Num NaN) => false
  | Some (Num (Fin q)) => negb (Qeq_bool q 0)
  | Some (Num _) => true
  end.

(** [a || b] *)
Definition js_or (a b : option value) : option value :=
  if truthy a then a else b.

(** [a ?? b]: no cell is [null], so only an absent one falls through. *)
Definition nullish (a b : option value) : option value :=
  match a with Some _ => a | None => b end.

Infix "||'" := js_or (at level 50, left associativity).
Infix "??" := nullish (at level 50, left associativity).

(** [s.padStart(n, "0")] *)
Definition padStart0 (n : nat) (s : string) : string :=
  String.concat "" (replicate (n - String.length s) "0") +:+ s.

(** [x.toFixed(4)] *)
Definition toFixed4 {B : Builtins} (x : number) : string :=
  match x with
  | Fin q =>
      let s := if Qle_bool 0 q then "" else "-" in
      let a := Qabs q in
      if Qle_bool (inject_Z (10 ^ 21)) a then s +:+ FiniteToString a
      else
        let n := Qfloor (a * inject_Z 10000 + (1 # 2)) in
        let m := padStart0 5 (pretty n) in
        let k := String.length m in
        s +:+ String.substring 0 (k - 4) m +:+ "." +:+ String.substring (k - 4) 4 m
  | _ => NumberToString x
  end.

(** ** JavaScript [Map] with string keys: insertion-ordered, one entry per key *)

Module JSMap.
Definition t (V : Type) := list (string * V).

Definition empty {V} : t V := [].

Fixpoint get {V} (k : string) (m : t V) : option V :=
  match m with
  | [] => None
  | (k', v) :: r => if decide (k' = k) then Some v else get k r
  end.

Definition has {V} (k : string) (m : t V) : bool :=
  match get k m with Some _ => true | None => false end.

(** [set] replaces the value of an existing key in place and appends a new
    key at the end. *)
Fixpoint set {V} (k : string) (v : V) (m : t V) : t V :=
  match m with
  | [] => [(k, v)]
  | (k', v') :: r => if decide (k' = k) then (k', v) :: r else (k', v') :: set k v r
  end.

Definition keys {V} (m : t V) : list string := m.*1.
Definition values {V} (m : t V) : list V := m.*2.
Definition size {V} (m : t V) : nat := length m.
End JSMap.

(** ** Features *)

Record Feature := {
  properties : obj;
  coordinates : number * number   (* [lon, lat] *)
}.

(** Assigning a field of an object literal; an [undefined] one is left out. *)
Definition field (k : string) (v : option value) (o : obj) : obj :=
  match v with Some x => <[k := x]> o | None => o end.

(** ** The batch-import tool *)

Module Ingest.

(** [const [WEST,SOUTH,EAST,NORTH] = argv.bbox.split(',').map(Number)] *)
Record Box := {
  WEST : number;
  SOUTH : number;
  EAST : number;
  NORTH : number
}.

(** A box whose four bounds are finite numbers *)
Definition finiteBox (w s e n : Q) : Box :=
  {| WEST := Fin w; SOUTH := Fin s; EAST := Fin e; NORTH := Fin n |}.

Section Tool.
Context {B : Builtins}.
Variable box : Box.

Definition isInBox (lon lat : number) : bool :=
  num_ge lon (WEST box) && num_le lon (EAST box) &&
  num_ge lat (SOUTH box) && num_le lat (NORTH box).

(** [iso.slice(0,7)]; a value that is not a string has no [slice], and the
    call throws. *)
Definition toMonthKey (iso : option value) : option string :=
  match iso with
  | Some (Str s) => Some (String.substring 0 7 s)
  | _ => None
  end.

Definition featureKey (f : Feature) : string :=
  let p := properties f in
  let '(lon, lat) := coordinates f in
  toFixed4 lon +:+ ":" +:+ toFixed4 lat +:+ ":" +:+
  ToString (p !! "acq_date") +:+ ":" +:+ ToString (p !! "acq_time") +:+ ":" +:+
  ToString (p !! "instrument" ||' Some (Str "")) +:+ ":" +:+
  ToString (p !! "satellite" ||' Some (Str "")).

(** [null] is [None]. *)
Definition rowToFeature (row : obj) : option Feature :=
  let lat := Number (row !! "latitude" ?? row !! "Latitude" ?? row !! "lat") in
  let lon := Number (row !! "longitude" ?? row !! "Longitude" ?? row !! "lon") in
  if negb (isFinite lat) || negb (isFinite lon) then None
  else if negb (isInBox lon lat) then None
  else
    let props :=
      field "acq_date" (row !! "acq_date" ?? row !! "ACQ_DATE" ?? row !! "date") $
      field "acq_time" (row !! "acq_time" ?? row !! "ACQ_TIME" ?? row !! "time") $
      field "satellite" (row !! "satellite" ?? row !! "SATELLITE") $
      field "instrument" (row !! "instrument" ?? row !! "INSTRUMENT") $
      field "confidence" (row !! "confidence" ?? row !! "CONFIDENCE") $
      field "frp" (row !! "frp" ?? row !! "FRP") $
      field "daynight" (row !! "daynight" ?? row !! "DAYNIGHT") $
      field "version" (row !! "version" ?? row !! "VERSION") ∅ in
    Some {| properties := props; coordinates := (lon, lat) |}.

(** [rows.map(rowToFeature).filter(Boolean)], the delimited-text branch of
    [loadOne]. *)
Definition loadRows (rows : list obj) : list Feature :=
  omap rowToFeature rows.

(** [obj.features.filter(f => isInBox(Number(lon), Number(lat)))], the
    branch of [loadOne] for a file that holds a feature collection. *)
Definition loadCollection (features : list Feature) : list Feature :=
  filter (fun f => isInBox (coordinates f).1 (coordinates f).2 = true) features.

(** The body of the loop of [main] over the features of a file.  [None]
    is the exception of [toMonthKey]. *)
Definition addFeature (buckets : JSMap.t (JSMap.t Feature)) (ft : Feature)
  : option (JSMap.t (JSMap.t Feature)) :=
  match toMonthKey (properties ft !! "acq_date") with
  | None => None
  | Some mk =>
      let buckets :=
        if negb (JSMap.has mk buckets) then JSMap.set mk JSMap.empty buckets
        else buckets in
      let dedup := featureKey ft in
      let bucket := default JSMap.empty (JSMap.get mk buckets) in
      Some (JSMap.set mk (JSMap.set dedup ft bucket) buckets)
  end.

Fixpoint addFeatures (buckets : JSMap.t (JSMap.t Feature)) (feats : list Feature)
  : option (JSMap.t (JSMap.t Feature)) :=
  match feats with
  | [] => Some buckets
  | ft :: rest =>
      match addFeature buckets ft with
      | Some buckets' => addFeatures buckets' rest
      | None => None
      end
  end.

(** The features written to the file of month [mk]. *)
Definition monthFeatures (buckets : JSMap.t (JSMap.t Feature)) (mk : string)
  : list Feature :=
  JSMap.values (default JSMap.empty (JSMap.get mk buckets)).

(** The keys held by the bucket of month [mk]. *)
Definition monthKeys (buckets : JSMap.t (JSMap.t Feature)) (mk : string)
  : list string :=
  JSMap.keys (default JSMap.empty (JSMap.get mk buckets)).
End Tool.

End Ingest.

(** ** The text of errors

    [httpStatusFromError] looks for [/HTTP\s+(\d+)/] in the message of an
    error and reads the digits it captures.  A text is a string of code units
    below 256. *)

Module ErrorText.

(** [\d] *)
Definition isDigit (c : ascii) : bool :=
  let n := N_of_ascii c in ((48 <=? n) && (n <=? 57))%N.

(** [\s], for the code units below 256: tab, line feed, vertical tab, form
    feed, carriage return, space and no-break space *)
Definition isSpace (c : ascii) : bool :=
  let n := N_of_ascii c in (((9 <=? n) && (n <=? 13)) || (n =? 32) || (n =? 160))%N.

(** The longest prefix of characters of a class, and what follows it *)
Fixpoint span (p : ascii -> bool) (s : string) : string * string :=
  match s with
  | "" => ("", "")
  | String c r =>
      if p c then let '(a, b) := span p r in (String c a, b) else ("", s)
  end.

(** [s] without the prefix [p], if it starts with it *)
Fixpoint stripPrefix (p s : string) : option string :=
  match p, s with
  | "", _ => Some s
  | String a p', String b s' => if Ascii.eqb a b then stripPrefix p' s' else None
  | String _ _, "" => None
  end.

(** A match of [/HTTP\s+(\d+)/] at the start of [s]: the digits captured.
    The two classes share no character, so the longest run of each is the
    only way to match. *)
Definition matchHere (s : string) : option string :=
  match stripPrefix "HTTP" s with
  | None => None
  | Some r =>
      let '(spaces, r1) := span isSpace r in
      if String.eqb spaces "" then None
      else
        let '(digits, _) := span isDigit r1 in
        if String.eqb digits "" then None else Some digits
  end.

(** [/HTTP\s+(\d+)/.exec(s)]: the capture of the leftmost match *)
Fixpoint exec (s : string) : option string :=
  match matchHere s with
  | Some digits => Some digits
  | None =>
      match s with
      | "" => None
      | String _ r => exec r
      end
  end.

(** A string of digits *)
Fixpoint allDigits (s : string) : bool :=
  match s with
  | "" => true
  | String c r => isDigit c && allDigits r
  end.

(** The number a string of digits writes.  [Number(digits)] is the double
    nearest to it, which is 403 or 429 exactly when this number is. *)
Fixpoint decimalValue (s : string) : N :=
  match s with
  | "" => 0
  | String c r => (N_of_ascii c - 48) * 10 ^ N.of_nat (String.length r) + decimalValue r
  end%N.

End ErrorText.

(** ** The prebake tool *)

Module Prebake.

(** *** Configuration and the outside world *)

Record Config := {
  THROTTLE_MS : Z;
  MAX_RETRIES : Z;
  SOURCES : list string;
  OUTDIR : string;
  BBOX : string;
  retryEmpty : bool
}.

Definition DAY_MAX : Z := 10.

(** Earliest availability per source *)
Definition SOURCE_START : gmap string string :=
  list_to_map
  [ ("MODIS_SP", "2000-11-01");
    ("MODIS_NRT", "2000-11-01");
    ("VIIRS_SNPP_SP", "2012-01-20");
    ("VIIRS_SNPP_NRT", "2012-01-20");
    ("VIIRS_NOAA20_SP", "2020-01-01");
    ("VIIRS_NOAA20_NRT", "2020-01-01");
    ("VIIRS_NOAA21_NRT", "2024-01-17") ].

Record Window := {
  startDateISO : string;
  dayRange : Z
}.

(** The arguments of one slice request: [{ source, bbox, ...w }] *)
Record Request := {
  source : string;
  bbox : string;
  window : Window
}.

(** What the endpoint answers.  The body is kept as the outcome of
    [parseCSV] on it. *)
Inductive Body :=
  | Blank                         (* [!text.trim()] *)
  | Csv (rows : list obj)         (* records, keyed by the header row *)
  | Malformed (message : string). (* [res.text()] or [parseCSV] throws *)

Inductive Response :=
  | NetworkFailure (message : string)   (* [fetch] rejects *)
  | Reply (status : N) (body : Body).

(** A thrown error, with its message *)
Record Error := JSError { message : string }.

(** The content of a file, as [readExistingCount] can see it. *)
Inductive Blob :=
  | Collection (features : list Feature)
  | NoFeatureArray            (* JSON whose [features] is not an array *)
  | Unreadable.               (* reading or parsing throws *)

Record World := {
  (** the answer to a request, given how many were made before it *)
  upstream : nat -> Request -> Response;
  (** requests made, latest first *)
  requests : list Request;
  (** delays slept in milliseconds, latest first *)
  sleeps : list Z;
  files : gmap string Blob
}.

Inductive Result (A : Type) :=
  | Ok (a : A)
  | Thrown (e : Error).
Arguments Ok {A} a.
Arguments Thrown {A} e.

(** An asynchronous computation: it changes the world and returns or throws. *)
Definition Async (A : Type) : Type := World -> Result A * World.

Definition ret {A} (a : A) : Async A := fun w => (Ok a, w).

Definition throw {A} (e : Error) : Async A := fun w => (Thrown e, w).

Definition bind {A C} (c : Async A) (k : A -> Async C) : Async C :=
  fun w =>
    match c w with
    | (Ok a, w') => k a w'
    | (Thrown e, w') => (Thrown e, w')
    end.

(** [try { c } catch (err) { h err }] *)
Definition try_catch {A} (c : Async A) (h : Error -> Async A) : Async A :=
  fun w =>
    match c w with
    | (Ok a, w') => (Ok a, w')
    | (Thrown e, w') => h e w'
    end.

Notation "'await' x <~ c ; k" := (bind c (fun x => k))
  (at level 10, x name, c at level 100, k at level 200).
Notation "'run' c ; k" := (bind c (fun _ => k))
  (at level 10, c at level 100, k at level 200).

(** The world once [ms] milliseconds have been slept *)
Definition logSleep (ms : Z) (w : World) : World :=
  {| upstream := upstream w; requests := requests w;
     sleeps := ms :: sleeps w; files := files w |}.

(** The world once the request [args] has been made *)
Definition logRequest (args : Request) (w : World) : World :=
  {| upstream := upstream w; requests := args :: requests w;
     sleeps := sleeps w; files := files w |}.

Definition sleep (ms : Z) : Async unit :=
  fun w => (Ok tt, logSleep ms w).

(** [fetch(url)]: the request is made and the endpoint answers. *)
Definition fetch (args : Request) : Async (N * Body) :=
  fun w =>
    match upstream w (length (requests w)) args with
    | NetworkFailure msg => (Thrown (JSError msg), logRequest args w)
    | Reply status body => (Ok (status, body), logRequest args w)
    end.

Definition pathExists (p : string) : Async bool :=
  fun w => (Ok (bool_decide (is_Some (files w !! p))), w).

(** [mkdirp(OUTDIR)] and [fs.writeFile]: the output directory is taken to be
    writable, so that the write succeeds. *)
Definition writeFile (p : string) (content : Blob) : Async unit :=
  fun w =>
    (Ok tt, {| upstream := upstream w; requests := requests w;
               sleeps := sleeps w; files := <[p := content]> (files w) |}).

(** [path.join(dir, name)], without the normalisation of the result: both
    name the same file. *)
Definition path_join (dir name : string) : string := dir +:+ "/" +:+ name.

(** *** Months and windows *)

Definition isLeap (y : Z) : bool :=
  (y mod 4 =? 0) && (negb (y mod 100 =? 0) || (y mod 400 =? 0)).

(** Days of the month of index [mn] (0 is January) in year [y] *)
Definition monthLength (y mn : Z) : Z :=
  match mn with
  | 1 => if isLeap y then 29 else 28
  | 3 | 5 | 8 | 10 => 30
  | _ => 31
  end.

(** The number of the day on which year [y] starts, day 0 being 1 January
    1970 *)
Definition dayFromYear (y : Z) : Z :=
  365 * (y - 1970) + (y - 1969) / 4 - (y - 1901) / 100 + (y - 1601) / 400.

(** The days of year [y] before its month of index [mn] *)
Definition daysBefore (y mn : Z) : Z :=
  foldr Z.add 0 (monthLength y <$> seqZ 0 mn).

(** The days on either side of day 0 that a [Date] can hold: a time value
    is at most 8.64e15 milliseconds from the epoch. *)
Definition DATE_RANGE : Z := 100000000.

(** [new Date(Date.UTC(y, m1to12, 0)).getUTCDate()], for integers [y] and
    [m1to12]; [None] is NaN.  [Date.UTC] reads a year from 0 to 99 as
    1900 + y, and day 0 of the month of index [m1to12] is the last day of the
    month before it, months carrying into years; the date of that day is the
    length of its month.  When the day is out of the range of [Date] the time
    value is NaN, and so is the date. *)
Definition daysInMonth (y m1to12 : Z) : option Z :=
  let yr := if (0 <=? y) && (y <=? 99) then 1900 + y else y in
  let ym := yr + (m1to12 - 1) / 12 in
  let mn := (m1to12 - 1) mod 12 in
  let day := dayFromYear ym + daysBefore ym mn + monthLength ym mn - 1 in
  if Z.abs day <=? DATE_RANGE then Some (monthLength ym mn) else None.

(** [a < b] on strings *)
Definition ymLt (a b : string) : bool := String.ltb a b.

(** [String(n).padStart(2,'0')] *)
Definition pad2 (n : Z) : string := padStart0 2 (pretty n).

(** [`${y}-${String(m).padStart(2,'0')}`], for integers that [String] writes
    digit by digit (those below 10^21 in magnitude) *)
Definition monthKeyOf (y m : Z) : string := pretty y +:+ "-" +:+ pad2 m.

(** The loop [for (let d = 1; d <= dim; d += DAY_MAX)] from day [d] on, for a
    span ceiling [dayMax >= 1]; it goes round at most [dim] times, and
    [turns] counts them down. *)
Fixpoint windowsFrom (turns : nat) (y m dim dayMax d : Z) : list Window :=
  match turns with
  | O => []
  | S turns' =>
      if d <=? dim then
        {| startDateISO := pretty y +:+ "-" +:+ pad2 m +:+ "-" +:+ pad2 d;
           dayRange := Z.min dayMax (dim - d + 1) |}
        :: windowsFrom turns' y m dim dayMax (d + dayMax)
      else []
  end.

(** The windows of a month; [d <= dim] is false from the start when [dim] is
    NaN. *)
Definition planWindows (y m dayMax : Z) : list Window :=
  match daysInMonth y m with
  | Some dim => windowsFrom (Z.to_nat dim) y m dim dayMax 1
  | None => []
  end.

(** The start day and the span of each window the loop makes *)
Fixpoint dayPlan (turns : nat) (dim dayMax d : Z) : list (Z * Z) :=
  match turns with
  | O => []
  | S turns' =>
      if d <=? dim then
        (d, Z.min dayMax (dim - d + 1)) :: dayPlan turns' dim dayMax (d + dayMax)
      else []
  end.

(** A number from 0 to 99 in two digits *)
Definition twoDigits (n : Z) : string :=
  let digit (k : Z) : ascii := ascii_of_N (48 + Z.to_N k) in
  String (digit (n / 10)) (String (digit (n mod 10)) "").

(** The date [YYYY-MM-DD] of day [d] of month [m] of year [y], with month and
    day in two digits: what the planner is to write as the start of a
    window. *)
Definition isoDate (y m d : Z) : string :=
  pretty y +:+ "-" +:+ twoDigits m +:+ "-" +:+ twoDigits d.

(** The window of [span] days that starts on day [d] of the month *)
Definition windowOn (y m d span : Z) : Window :=
  {| startDateISO := isoDate y m d; dayRange := span |}.

(** The days covered by [span] days from day [d] on *)
Definition daysOf (p : Z * Z) : list Z := seqZ p.1 p.2.

(** Days of month [m] (1 to 12) of year [y] in the Gregorian calendar: what
    the planner is to compute. *)
Definition calendarDays (y m : Z) : Z :=
  if m =? 2 then
    if (y mod 4 =? 0) && (negb (y mod 100 =? 0) || (y mod 400 =? 0)) then 29 else 28
  else if (m =? 4) || (m =? 6) || (m =? 9) || (m =? 11) then 30
  else 31.

(** The message of the error that [fetchSlice] throws on a status that is not
    ok: [`HTTP ${res.status} (${source} ${startDateISO} +${dayRange-1})`] *)
Definition errorMessage (status : N) (args : Request) : string :=
  "HTTP " +:+ pretty status +:+ " (" +:+ source args +:+ " " +:+
  startDateISO (window args) +:+ " +" +:+ pretty (dayRange (window args) - 1) +:+ ")".

(** The names that every object inherits from [Object.prototype].  Read in
    [SOURCE_START], each gives a function (the prototype itself for
    [__proto__]): a value that is truthy and has no [slice]. *)
Definition inheritedNames : list string :=
  [ "constructor"; "__defineGetter__"; "__defineSetter__"; "hasOwnProperty";
    "__lookupGetter__"; "__lookupSetter__"; "isPrototypeOf"; "propertyIsEnumerable";
    "toString"; "valueOf"; "__proto__"; "toLocaleString" ].

(** [SOURCE_START[source] || '1900-01-01'] when it is a string; [None] when
    it is an inherited value. *)
Definition startOf (source : string) : option string :=
  match SOURCE_START !! source with
  | Some start => Some start
  | None => if bool_decide (source ∈ inheritedNames) then None else Some "1900-01-01"
  end.

(** *** Normalising and keying *)

Section Tool.
Context {B : Builtins}.
Variable cfg : Config.

Definition rowToFeature (row : obj) : Feature :=
  let lat := Number (row !! "latitude") in
  let lon := Number (row !! "longitude") in
  let props :=
    field "acq_date" (row !! "acq_date") $
    field "acq_time" (row !! "acq_time") $
    field "satellite" (row !! "satellite") $
    field "instrument" (row !! "instrument") $
    field "confidence" (row !! "confidence") $
    field "frp" (if truthy (row !! "frp")
                 then Some (Num (Number (row !! "frp"))) else None) $
    field "daynight" (row !! "daynight") $
    field "version" (row !! "version") $
    field "src" (row !! "src" ||' row !! "source" ||' Some (Str "")) ∅ in
  {| properties := props; coordinates := (lon, lat) |}.

Definition featureKey (f : Feature) : string :=
  let p := properties f in
  let '(lon, lat) := coordinates f in
  toFixed4 lon +:+ ":" +:+ toFixed4 lat +:+ ":" +:+
  ToString (p !! "acq_date") +:+ ":" +:+ ToString (p !! "acq_time") +:+ ":" +:+
  ToString (p !! "instrument" ||' Some (Str "")) +:+ ":" +:+
  ToString (p !! "satellite" ||' Some (Str "")).

(** *** Fetching one slice *)

(** [res.ok] *)
Definition ok (status : N) : bool := ((200 <=? status) && (status <=? 299))%N.

Definition fetchSlice (args : Request) : Async (list Feature) :=
  await res <~ fetch args;
  let '(status, body) := res in
  if negb (ok status) then throw (JSError (errorMessage status args))
  else
    match body with
    | Blank => ret []
    | Csv rows => ret (rowToFeature <$> rows)
    | Malformed msg => throw (JSError msg)
    end.

(** [Number(m[1])] for the match [m] of [/HTTP\s+(\d+)/] in the message, [None]
    when there is none *)
Definition httpStatusFromError (err : Error) : option N :=
  ErrorText.decimalValue <$> ErrorText.exec (message err).

(** [code === 403 || code === 429] *)
Definition isLimit (code : option N) : bool :=
  match code with
  | Some c => ((c =? 403) || (c =? 429))%N
  | None => false
  end.

(** [Math.min(120000, 15000 * (attempt + 1))] *)
Definition backoff (attempt : Z) : Z := Z.min 120000 (15000 * (attempt + 1)).

(** The loop [for (attempt = 0; attempt <= MAX_RETRIES; attempt++)] over
    the attempts that are left; when none is, the function returns the
    empty list. *)
Fixpoint retryLoop (args : Request) (attempts : list Z) : Async (list Feature) :=
  match attempts with
  | [] => ret []
  | attempt :: later =>
      try_catch
        (await out <~ fetchSlice args;
         run sleep (THROTTLE_MS cfg);
         ret out)
        (fun err =>
           let code := httpStatusFromError err in
           if isLimit code then
             run sleep (backoff attempt);
             retryLoop args later
           else throw err)
  end.

(** The attempts of the loop from [attempt] on: [attempt], ...,
    [MAX_RETRIES]. *)
Definition attemptsFrom (attempt : Z) : list Z :=
  seqZ attempt (MAX_RETRIES cfg + 1 - attempt).

Definition fetchSliceRetry (args : Request) : Async (list Feature) :=
  retryLoop args (attemptsFrom 0).

(** The loop seen as a state machine: it is about to make attempt [n], or
    the loop condition has failed. *)
Inductive FetcherState :=
  | Attempting (n : Z)
  | Exhausted.

(** What the loop does from a state on *)
Definition resume (args : Request) (st : FetcherState) : Async (list Feature) :=
  match st with
  | Attempting n => retryLoop args (attemptsFrom n)
  | Exhausted => ret []
  end.

(** The state after [attempt++] and the test [attempt <= MAX_RETRIES] *)
Definition nextAttempt (n : Z) : FetcherState :=
  if n + 1 <=? MAX_RETRIES cfg then Attempting (n + 1) else Exhausted.

(** *** Assembling one month *)

(** What [readExistingCount] makes of the content of a file; [null] is
    [None]. *)
Definition featureCount (content : option Blob) : option nat :=
  match content with
  | Some (Collection features) => Some (length features)
  | Some NoFeatureArray => Some 0%nat
  | Some Unreadable | None => None
  end.

Definition readExistingCount (file : string) : Async (option nat) :=
  fun w => (Ok (featureCount (files w !! file)), w).

(** What [prebakeMonth] reports on the console when it returns. *)
Inductive Decision :=
  | Skipped                   (* the file exists *)
  | Deferred                  (* Skipping write, 0 features due to rate limit *)
  | Written (count : nat).    (* Wrote the file *)

(** [for (const x of xs) body], threading the variables the body assigns *)
Fixpoint forOf {A S} (xs : list A) (body : S -> A -> Async S) (s : S) : Async S :=
  match xs with
  | [] => ret s
  | x :: rest => await s' <~ body s x; forOf rest body s'
  end.

(** [const k = featureKey(f); if (!uniq.has(k)) uniq.set(k, f);] *)
Definition addUnique (uniq : JSMap.t Feature) (f : Feature) : JSMap.t Feature :=
  let k := featureKey f in
  if negb (JSMap.has k uniq) then JSMap.set k f uniq else uniq.

(** The body of the loop over the windows of one source; the state is
    [(uniq, sawLimit)]. *)
Definition fetchWindow (source : string) (st : JSMap.t Feature * bool) (w : Window)
  : Async (JSMap.t Feature * bool) :=
  let '(uniq, sawLimit) := st in
  try_catch
    (await feats <~ fetchSliceRetry {| source := source; bbox := BBOX cfg; window := w |};
     ret (foldl addUnique uniq feats, sawLimit))
    (fun err =>
       let code := httpStatusFromError err in
       if isLimit code then ret (uniq, true) else ret (uniq, sawLimit)).

(** The body of the loop over the sources.  [start.slice] is called outside
    the [try]: when [start] is not a string the call throws a [TypeError]
    that ends [prebakeMonth]. *)
Definition fetchSource (monthKey : string) (windows : list Window)
    (st : JSMap.t Feature * bool) (source : string)
  : Async (JSMap.t Feature * bool) :=
  match startOf source with
  | None => throw (JSError "start.slice is not a function")
  | Some start =>
      if ymLt monthKey (String.substring 0 7 start) then ret st
      else forOf windows (fetchWindow source) st
  end.

(** The end of [prebakeMonth], once the loops have filled [uniq] and set
    [sawLimit] *)
Definition finishMonth (outfile : string) (uniq : JSMap.t Feature) (sawLimit : bool)
  : Async Decision :=
  let count := JSMap.size uniq in
  let fc := Collection (JSMap.values uniq) in
  if (count =? 0)%nat && sawLimit then ret Deferred
  else
    run writeFile outfile fc;
    ret (Written count).

(** [prebakeMonth] from the computation of the windows on *)
Definition assembleMonth (y m : Z) (monthKey outfile : string) : Async Decision :=
  let windows := planWindows y m DAY_MAX in
  await st <~ forOf (SOURCES cfg) (fetchSource monthKey windows) (JSMap.empty, false);
  finishMonth outfile st.1 st.2.

Definition outfileOf (y m : Z) : string :=
  path_join (OUTDIR cfg) ("CA-" +:+ monthKeyOf y m +:+ ".geojson").

(** Whether [prebakeMonth] returns before fetching, because the file
    exists *)
Definition existingSkips (outfile : string) : Async bool :=
  await present <~ pathExists outfile;
  if present then
    if negb (retryEmpty cfg) then ret true
    else
      await n <~ readExistingCount outfile;
      match n with
      | None => ret false                           (* unreadable: rebuild *)
      | Some n => if (0 <? n)%nat then ret true else ret false
      end
  else ret false.

Definition prebakeMonth (y m : Z) : Async Decision :=
  let monthKey := monthKeyOf y m in
  let outfile := outfileOf y m in
  await skip <~ existingSkips outfile;
  if skip then ret Skipped
  else assembleMonth y m monthKey outfile.

(** [for (const mm of months) await prebakeMonth(mm)] *)
Definition prebakeAll (months : list (Z * Z)) : Async (list Decision) :=
  forOf months (fun done mm => await d <~ prebakeMonth mm.1 mm.2; ret (done ++ [d])) [].
End Tool.

(** An answer with status 403 or 429 *)
Definition isRateLimit (r : Response) : bool :=
  match r with
  | Reply status _ => ((status =? 403) || (status =? 429))%N
  | NetworkFailure _ => false
  end.

(** No configured source is a name inherited from [Object.prototype]. *)
Definition plainSources (cfg : Config) : Prop :=
  Forall (fun source => source ∉ inheritedNames) (SOURCES cfg).

(** The endpoint of [w] answers every request with a rate limit. *)
Definition allLimited (w : World) : Prop :=
  forall i args, isRateLimit (upstream w i args) = true.

(** A world in which nothing has happened yet *)
Definition freshWorld (up : nat -> Request -> Response) (fs : gmap string Blob) : World :=
  {| upstream := up; requests := []; sleeps := []; files := fs |}.

End Prebake.

(** ** Built-ins for running examples

    Plain decimal literals (an optional sign, digits, an optional fraction) are
    read exactly and the empty string as 0; anything else reads as NaN.  The
    theorems below hold for every instance of [Builtins]; this one only runs
    the tools on concrete rows. *)

Definition digit (c : Ascii.ascii) : option N :=
  let n := Ascii.N_of_ascii c in
  if ((48 <=? n) && (n <=? 57))%N then Some (n - 48)%N else None.

Fixpoint digitsAcc (acc : N) (s : string) : option N :=
  match s with
  | "" => Some acc
  | String c r =>
      match digit c with
      | Some d => digitsAcc (10 * acc + d)%N r
      | None => None
      end
  end.

Definition digitsOf (s : string) : option N :=
  match s with
  | "" => None
  | _ => digitsAcc 0 s
  end.

Fixpoint splitAtDot (s : string) : string * option string :=
  match s with
  | "" => ("", None)
  | String c r =>
      if Ascii.eqb c "."%char then ("", Some r)
      else let '(a, b) := splitAtDot r in (String c a, b)
  end.

Definition readUnsigned (s : string) : option Q :=
  match splitAtDot s with
  | (ip, None) => (fun n => inject_Z (Z.of_N n)) <$> digitsOf ip
  | (ip, Some fp) =>
      match digitsOf ip, digitsOf fp with
      | Some i, Some f =>
          Some (inject_Z (Z.of_N i) + Qmake (Z.of_N f) (Pos.pow 10 (Pos.of_nat (String.length fp))))%Q
      | _, _ => None
      end
  end.

Definition readDecimal (s : string) : number :=
  match s with
  | "" => Fin 0
  | String c r =>
      if Ascii.eqb c "-"%char then from_option (fun q => Fin (- q)) NaN (readUnsigned r)
      else if Ascii.eqb c "+"%char then from_option Fin NaN (readUnsigned r)
      else from_option Fin NaN (readUnsigned s)
  end.

Definition exampleBuiltins : Builtins :=
  {| StringToNumber := readDecimal;
     FiniteToString := fun q => pretty (Qfloor q) |}.

(** ** Example data *)

(** The default bounding box of the batch-import tool: -125,32,-113.5,43 *)
Definition californiaBox : Ingest.Box :=
  Ingest.finiteBox (-125 # 1) (32 # 1) (-1135 # 10) (43 # 1).

(** A detection by MODIS on Terra with the given radiative power *)
Definition terraRow (frp : string) : obj :=
  {[ "latitude" := Str "34.5"; "longitude" := Str "-120.25";
     "acq_date" := Str "2023-02-03"; "acq_time" := Str "0930";
     "satellite" := Str "Terra"; "instrument" := Str "MODIS";
     "frp" := Str frp ]}.

(** A detection that names neither instrument nor satellite *)
Definition bareRow (lon : string) : obj :=
  {[ "latitude" := Str "34.5"; "longitude" := Str lon;
     "acq_date" := Str "2023-02-03"; "acq_time" := Str "0930" ]}.

Definition terraA : Feature := @Prebake.rowToFeature exampleBuiltins (terraRow "12.5").
Definition terraB : Feature := @Prebake.rowToFeature exampleBuiltins (terraRow "20.25").
Definition bareA : Feature := @Prebake.rowToFeature exampleBuiltins (bareRow "-120.25").
Definition bareB : Feature :=
  @Prebake.rowToFeature exampleBuiltins (bareRow "-120.2500152587890625").

(** The default configuration, for one source *)
Definition exampleConfig (retryEmpty : bool) : Prebake.Config :=
  {| Prebake.THROTTLE_MS := 800; Prebake.MAX_RETRIES := 4;
     Prebake.SOURCES := ["MODIS_SP"]; Prebake.OUTDIR := "./data/firms";
     Prebake.BBOX := "-125,32,-113.5,43"; Prebake.retryEmpty := retryEmpty |}.

Definition exampleRequest : Prebake.Request :=
  {| Prebake.source := "MODIS_SP"; Prebake.bbox := "-125,32,-113.5,43";
     Prebake.window := {| Prebake.startDateISO := "2023-02-01"; Prebake.dayRange := 10 |} |}.

(** An endpoint that answers 429 to the first [n] requests and then sends one
    row *)
Definition limitedThenRow (n : nat) : nat -> Prebake.Request -> Prebake.Response :=
  fun i _ =>
    if (i <? n)%nat then Prebake.Reply 429 Prebake.Blank
    else Prebake.Reply 200 (Prebake.Csv [terraRow "12.5"]).

(** An endpoint that answers 429 to every request *)
Definition alwaysLimited : nat -> Prebake.Request -> Prebake.Response :=
  fun _ _ => Prebake.Reply 429 Prebake.Blank.

(** The file of February 2023 under [exampleConfig] *)
Definition exampleOutfile : string := "./data/firms/CA-2023-02.geojson".

(** A field that is missing or the empty string *)
Definition absentOrEmpty (v : option value) : Prop :=
  v = None \/ v = Some (Str "").

(** The text of [toFixed(4)] for a sign and the digits [m] of the rounded
    number of ten-thousandths *)
Definition fixedText (s m : string) : string :=
  let k := String.length m in
  s +:+ String.substring 0 (k - 4) m +:+ "." +:+ String.substring (k - 4) 4 m.

(** ** The list of months *)

Module Driver.

(** An entry of the list of months: [{ y, m, key }] *)
Record MonthRef := {
  y : Z;
  m : Z;
  key : string
}.

(** The loop [for (let y = ys, m = ms; y < ye || (y === ye && m <= me); )] of
    [monthList] from the month [(y, m)] on; [turns] bounds the number of times
    it goes round. *)
Fixpoint monthsFrom (turns : nat) (ye me y m : Z) : list MonthRef :=
  match turns with
  | O => []
  | S turns' =>
      if (y <? ye) || ((y =? ye) && (m <=? me)) then
        {| y := y; m := m; key := pretty y +:+ "-" +:+ Prebake.pad2 m |}
        :: (if 12 <? m + 1 then monthsFrom turns' ye me (y + 1) 1
            else monthsFrom turns' ye me y (m + 1))
      else []
  end.

(** A number the loop decreases each time it goes round, and that is not
    negative while the loop condition holds *)
Definition monthsLeft (ye y m : Z) : Z := 13 * (ye - y + 1) - Z.min m 13.

(** [monthList(startYM, endYM)] without the [--months] list, from the numbers
    [ys], [ms] of the start and [ye], [me] of the end *)
Definition monthRange (ys ms ye me : Z) : list MonthRef :=
  monthsFrom (Z.to_nat (monthsLeft ye ys ms + 1)) ye me ys ms.

(** The place of a month on the time line *)
Definition monthIndex (y m : Z) : Z := 12 * y + (m - 1).

End Driver.

(** ** Invariants of the loops *)

Section Invariants.
Context {B : Builtins}.
Import Prebake.
Variable cfg : Config.

(** Every entry of the bucket is filed under its own key, and no key twice. *)
Definition keyedBucket (uniq : JSMap.t Feature) : Prop :=
  NoDup (JSMap.keys uniq) /\ JSMap.keys uniq = Prebake.featureKey <$> JSMap.values uniq.

(** The bucket of month [mk], empty when the month has none *)
Definition bucketOf (buckets : JSMap.t (JSMap.t Feature)) (mk : string) : JSMap.t Feature :=
  default JSMap.empty (JSMap.get mk buckets).

(** What holds of the buckets while the features [seen] are imported: each
    month's bucket has no key twice, and files under its own key a feature
    that was seen and whose acquisition date is of the month. *)
Definition filedByMonth (seen : list Feature) (buckets : JSMap.t (JSMap.t Feature)) : Prop :=
  forall mk, NoDup (JSMap.keys (bucketOf buckets mk)) /\
    forall k f, (k, f) ∈ bucketOf buckets mk ->
      k = Ingest.featureKey f /\
      Ingest.toMonthKey (properties f !! "acq_date") = Some mk /\ f ∈ seen.

(** What one call of [fetchSlice] makes of the answer to its request *)
Definition sliceOutcome (args : Request) (r : Response) : Result (list Feature) :=
  match r with
  | NetworkFailure msg => Thrown (JSError msg)
  | Reply status body =>
      if negb (ok status) then Thrown (JSError (errorMessage status args))
      else
        match body with
        | Blank => Ok []
        | Csv rows => Ok (rowToFeature <$> rows)
        | Malformed msg => Thrown (JSError msg)
        end
  end.

(** An answer after which the loop of [fetchSliceRetry] goes round again *)
Definition retried (args : Request) (r : Response) : bool :=
  match sliceOutcome args r with
  | Thrown e => isLimit (httpStatusFromError e)
  | Ok _ => false
  end.

(** The world after [pre] attempts whose answers were all retried *)
Definition afterLimited (args : Request) (pre : list Z) (w : World) : World :=
  {| upstream := upstream w;
     requests := replicate (length pre) args ++ requests w;
     sleeps := reverse (backoff <$> pre) ++ sleeps w;
     files := files w |}.

(** The requests of one month: for a configured source, with the configured
    box, for a window of the month *)
Definition monthRequest (y m : Z) (rq : Request) : Prop :=
  source rq ∈ SOURCES cfg /\ bbox rq = BBOX cfg /\ window rq ∈ planWindows y m DAY_MAX.

(** What the loops of [prebakeMonth] keep true, from the world [w0] on:
    [sawLimit] is unset, the bucket files each feature under its own key and
    no key twice, the files and the endpoint are those of [w0], and the
    requests made since are requests of the month. *)
Definition assembling (y m : Z) (w0 : World) (st : JSMap.t Feature * bool) (w : World) : Prop :=
  st.2 = false /\ keyedBucket st.1 /\
  files w = files w0 /\ upstream w = upstream w0 /\
  exists new, requests w = new ++ requests w0 /\ Forall (monthRequest y m) new.
End Invariants.

(** An endpoint that answers 429 to the first [n] requests and then 500 *)
Definition limitedThenError (n : nat) : nat -> Prebake.Request -> Prebake.Response :=
  fun i _ =>
    if (i <? n)%nat then Prebake.Reply 429 Prebake.Blank
    else Prebake.Reply 500 Prebake.Blank.

(** * Properties *)

(** ** Numbers *)

Lemma num_le_spec (a b : number) : num_le a b = true <-> le_number a b.
Proof.
  split.
  - destruct a, b; simpl; intros H; try discriminate;
      try (constructor; congruence).
    constructor. by apply Qle_bool_iff.
  - intros H; inversion H; subst; simpl.
    + by apply Qle_bool_iff.
    + by destruct b.
    + by destruct a.
Qed.

Lemma num_le_nan_r (a : number) : num_le a NaN = false.
Proof. by destruct a. Qed.

Section GeometryFilter.
Import Ingest.

Lemma isInBox_iff (box : Box) (lon lat : number) :
  isInBox box lon lat = true <->
  le_number (WEST box) lon /\ le_number lon (EAST box) /\
  le_number (SOUTH box) lat /\ le_number lat (NORTH box).
Proof.
  unfold isInBox, num_ge.
  rewrite !andb_true_iff, !num_le_spec. tauto.
Qed.

Lemma isInBox_nan (box : Box) (lon lat : number) :
  lon = NaN \/ lat = NaN -> isInBox box lon lat = false.
Proof.
  intros [-> | ->]; unfold isInBox, num_ge; simpl;
    rewrite ?num_le_nan_r, ?andb_false_r; done.
Qed.

Lemma isInBox_finite_iff (w s e n : Q) (lon lat : number) :
  isInBox (finiteBox w s e n) lon lat = true <->
  exists x y, lon = Fin x /\ lat = Fin y /\
              (w <= x)%Q /\ (x <= e)%Q /\ (s <= y)%Q /\ (y <= n)%Q.
Proof.
  rewrite isInBox_iff. simpl. split.
  - intros (H1 & H2 & H3 & H4).
    inversion H1; subst; inversion H2; subst; try congruence.
    inversion H3; subst; inversion H4; subst; try congruence.
    eauto 10.
  - intros (x & y & -> & -> & ? & ? & ? & ?).
    repeat split; by constructor.
Qed.

(** C9.  Under a bounding box with finite bounds, west below east and south
    below north, [isInBox] is true exactly for the finite coordinates with
    west <= lon <= east and south <= lat <= north: the corner (west, north)
    is accepted, a coordinate outside either interval is refused, and so is
    any coordinate pair with a NaN or infinite component. *)
Theorem isInBox_spec (w s e n : Q) (Hwe : (w < e)%Q) (Hsn : (s < n)%Q) :
  let box := finiteBox w s e n in
  (forall lon lat,
     isInBox box lon lat = true <->
     exists x y, lon = Fin x /\ lat = Fin y /\
                 (w <= x)%Q /\ (x <= e)%Q /\ (s <= y)%Q /\ (y <= n)%Q) /\
  isInBox box (Fin w) (Fin n) = true /\
  (forall x y, (x < w)%Q \/ (e < x)%Q \/ (y < s)%Q \/ (n < y)%Q ->
               isInBox box (Fin x) (Fin y) = false) /\
  (forall lon lat, isFinite lon = false \/ isFinite lat = false ->
                   isInBox box lon lat = false).
Proof.
  intros box. split; [|split; [|split]].
  - intros lon lat. apply isInBox_finite_iff.
  - apply isInBox_finite_iff. exists w, n.
    repeat split; auto using Qle_refl, Qlt_le_weak.
  - intros x y Hout. apply not_true_is_false. intros Hin.
    apply isInBox_finite_iff in Hin as (x' & y' & [= <-] & [= <-] & ? & ? & ? & ?).
    destruct Hout as [H | [H | [H | H]]];
      eapply Qlt_not_le; eauto.
  - intros lon lat Hnf. apply not_true_is_false. intros Hin.
    apply isInBox_finite_iff in Hin as (x' & y' & -> & -> & _).
    by destruct Hnf.
Qed.

Lemma isInBox_spec_witness :
  isInBox californiaBox (Fin (-125 # 1)) (Fin (43 # 1)) = true /\
  isInBox californiaBox (Fin (-12025 # 100)) (Fin (345 # 10)) = true /\
  isInBox californiaBox (Fin (-100 # 1)) (Fin (345 # 10)) = false /\
  isInBox californiaBox NaN (Fin (345 # 10)) = false /\
  isInBox californiaBox (Fin (-12025 # 100)) PosInf = false.
Proof.
  destruct (isInBox_spec (-125 # 1) (32 # 1) (-1135 # 10) (43 # 1))
    as (Hiff & Hcorner & Hout & Hnonfinite); [reflexivity | reflexivity |].
  split; [exact Hcorner|]. split; [|split; [|split]].
  - apply Hiff. exists (-12025 # 100)%Q, (345 # 10)%Q.
    repeat split; try reflexivity; discriminate.
  - apply Hout. right. left. reflexivity.
  - apply Hnonfinite. left. reflexivity.
  - apply Hnonfinite. right. reflexivity.
Defined.
End GeometryFilter.

(** ** Maps in insertion order *)

Section JSMapFacts.
Context {V : Type}.
Implicit Types (m : JSMap.t V) (k : string) (v : V).

Lemma get_set k k' v m :
  JSMap.get k' (JSMap.set k v m) = if decide (k = k') then Some v else JSMap.get k' m.
Proof.
  induction m as [|[k0 v0] m IH]; simpl.
  - by destruct (decide (k = k')).
  - destruct (decide (k0 = k)) as [->|Hne]; simpl.
    + by destruct (decide (k = k')).
    + destruct (decide (k0 = k')) as [->|Hne'].
      * by rewrite decide_False by congruence.
      * apply IH.
Qed.

Lemma has_set k k' v m :
  JSMap.has k' (JSMap.set k v m) = if decide (k = k') then true else JSMap.has k' m.
Proof. unfold JSMap.has. rewrite get_set. by destruct (decide (k = k')). Qed.

Lemma has_keys k m : JSMap.has k m = true <-> k ∈ JSMap.keys m.
Proof.
  unfold JSMap.has, JSMap.keys.
  induction m as [|[k0 v0] m IH]; simpl.
  - split; [done | by intros ?%elem_of_nil].
  - rewrite elem_of_cons. destruct (decide (k0 = k)) as [->|Hne].
    + split; auto.
    + rewrite IH. split; [auto | intros [?|?]; [congruence | done]].
Qed.

Lemma keys_set k v m :
  JSMap.keys (JSMap.set k v m) =
  if JSMap.has k m then JSMap.keys m else JSMap.keys m ++ [k].
Proof.
  unfold JSMap.has, JSMap.keys.
  induction m as [|[k0 v0] m IH]; [done|].
  cbn [JSMap.set JSMap.get].
  destruct (decide (k0 = k)) as [->|Hne]; [done|].
  rewrite !fmap_cons, IH. by destruct (JSMap.get k m).
Qed.

Lemma set_present_length k v m : JSMap.has k m = true ->
  JSMap.size (JSMap.set k v m) = JSMap.size m.
Proof.
  intros Hk. unfold JSMap.size.
  rewrite <-(length_fmap fst (JSMap.set k v m)), <-(length_fmap fst m).
  fold (JSMap.keys (JSMap.set k v m)). rewrite keys_set, Hk. done.
Qed.
End JSMapFacts.

(** ** Deduplication *)

Section Dedup.
Context {B : Builtins}.

Lemma featureKey_same (f : Feature) : Ingest.featureKey f = Prebake.featureKey f.
Proof. done. Qed.

Lemma addUnique_present (uniq : JSMap.t Feature) (f : Feature) :
  JSMap.has (Prebake.featureKey f) uniq = true -> Prebake.addUnique uniq f = uniq.
Proof. intros H. unfold Prebake.addUnique. by rewrite H. Qed.

Lemma addUnique_keys (uniq : JSMap.t Feature) (f : Feature) :
  JSMap.keys (Prebake.addUnique uniq f) =
  if JSMap.has (Prebake.featureKey f) uniq then JSMap.keys uniq
  else JSMap.keys uniq ++ [Prebake.featureKey f].
Proof.
  unfold Prebake.addUnique.
  destruct (JSMap.has _ uniq) eqn:Hk; simpl; [done|].
  by rewrite keys_set, Hk.
Qed.

Lemma addUnique_keyset (uniq : JSMap.t Feature) (f : Feature) :
  list_to_set (JSMap.keys (Prebake.addUnique uniq f)) =@{gset string}
  list_to_set (JSMap.keys uniq) ∪ {[Prebake.featureKey f]}.
Proof.
  rewrite addUnique_keys.
  destruct (JSMap.has _ uniq) eqn:Hk.
  - apply has_keys in Hk. set_solver.
  - rewrite list_to_set_app_L. set_solver.
Qed.

Lemma fold_addUnique_keyset (fs : list Feature) (uniq : JSMap.t Feature) :
  list_to_set (JSMap.keys (foldl Prebake.addUnique uniq fs)) =@{gset string}
  list_to_set (JSMap.keys uniq) ∪ list_to_set (Prebake.featureKey <$> fs).
Proof.
  revert uniq. induction fs as [|f fs IH]; intros uniq; simpl.
  - set_solver.
  - rewrite IH, addUnique_keyset. set_solver.
Qed.

(** The keys of the bucket of a month after one more feature *)
Lemma addFeature_monthKeys buckets buckets' (f : Feature) (mk mk' : string) :
  Ingest.toMonthKey (properties f !! "acq_date") = Some mk ->
  Ingest.addFeature buckets f = Some buckets' ->
  Ingest.monthKeys buckets' mk' =
  if decide (mk = mk') then
    if JSMap.has (Ingest.featureKey f) (default JSMap.empty (JSMap.get mk buckets))
    then Ingest.monthKeys buckets mk
    else Ingest.monthKeys buckets mk ++ [Ingest.featureKey f]
  else Ingest.monthKeys buckets mk'.
Proof.
  intros Hmk. unfold Ingest.addFeature, Ingest.monthKeys. rewrite Hmk.
  intros [= <-].
  destruct (JSMap.get mk buckets) as [bucket|] eqn:Hget.
  - assert (JSMap.has mk buckets = true) as -> by (unfold JSMap.has; by rewrite Hget).
    simpl. rewrite get_set, Hget. simpl.
    destruct (decide (mk = mk')) as [<-|Hne]; simpl.
    + by rewrite keys_set.
    + done.
  - assert (JSMap.has mk buckets = false) as -> by (unfold JSMap.has; by rewrite Hget).
    simpl. rewrite !get_set.
    destruct (decide (mk = mk')) as [<-|Hne]; simpl; [by rewrite decide_True | done].
Qed.

Lemma addFeature_keyset buckets buckets' (f : Feature) (mk mk' : string) :
  Ingest.toMonthKey (properties f !! "acq_date") = Some mk ->
  Ingest.addFeature buckets f = Some buckets' ->
  list_to_set (Ingest.monthKeys buckets' mk') =@{gset string}
  list_to_set (Ingest.monthKeys buckets mk') ∪
  (if decide (mk = mk') then {[Ingest.featureKey f]} else ∅).
Proof.
  intros Hmk Hadd. rewrite (addFeature_monthKeys _ _ _ _ _ Hmk Hadd).
  destruct (decide (mk = mk')) as [<-|Hne]; [|set_solver].
  destruct (JSMap.has _ _) eqn:Hk.
  - apply has_keys in Hk. fold (Ingest.monthKeys buckets mk) in Hk. set_solver.
  - rewrite list_to_set_app_L. set_solver.
Qed.

Lemma addFeature_some buckets (f : Feature) (mk : string) :
  Ingest.toMonthKey (properties f !! "acq_date") = Some mk ->
  exists buckets', Ingest.addFeature buckets f = Some buckets'.
Proof. intros Hmk. unfold Ingest.addFeature. rewrite Hmk. eauto. Qed.

Lemma addFeature_none buckets (f : Feature) :
  Ingest.toMonthKey (properties f !! "acq_date") = None ->
  Ingest.addFeature buckets f = None.
Proof. intros Hmk. unfold Ingest.addFeature. by rewrite Hmk. Qed.

(** C8.  Folding [a; b] and folding [b; a] into empty buckets give the same
    set of keys, in the prebake tool and, month by month, in the
    batch-import tool (where both orders fail together on a feature without
    an acquisition date). *)
Theorem dedup_membership_commutes (a b : Feature) :
  list_to_set (JSMap.keys (foldl Prebake.addUnique JSMap.empty [a; b])) =@{gset string}
  list_to_set (JSMap.keys (foldl Prebake.addUnique JSMap.empty [b; a]))
  /\
  match Ingest.addFeatures JSMap.empty [a; b], Ingest.addFeatures JSMap.empty [b; a] with
  | Some ab, Some ba =>
      forall mk, list_to_set (Ingest.monthKeys ab mk) =@{gset string}
                 list_to_set (Ingest.monthKeys ba mk)
  | None, None => True
  | _, _ => False
  end.
Proof.
  split.
  - rewrite !fold_addUnique_keyset. set_solver.
  - cbn [Ingest.addFeatures].
    destruct (Ingest.toMonthKey (properties a !! "acq_date")) as [mka|] eqn:Ha;
      destruct (Ingest.toMonthKey (properties b !! "acq_date")) as [mkb|] eqn:Hb.
    + destruct (addFeature_some JSMap.empty a mka Ha) as [ma Hma].
      destruct (addFeature_some JSMap.empty b mkb Hb) as [mb Hmb].
      destruct (addFeature_some ma b mkb Hb) as [mab Hmab].
      destruct (addFeature_some mb a mka Ha) as [mba Hmba].
      rewrite Hma, Hmb, Hmab, Hmba. intros mk.
      rewrite (addFeature_keyset _ _ _ _ mk Hb Hmab), (addFeature_keyset _ _ _ _ mk Ha Hma).
      rewrite (addFeature_keyset _ _ _ _ mk Ha Hmba), (addFeature_keyset _ _ _ _ mk Hb Hmb).
      set_solver.
    + destruct (addFeature_some JSMap.empty a mka Ha) as [ma Hma].
      by rewrite Hma, !addFeature_none.
    + destruct (addFeature_some JSMap.empty b mkb Hb) as [mb Hmb].
      by rewrite Hmb, !addFeature_none.
    + by rewrite !addFeature_none.
Qed.
End Dedup.

Section DedupClaims.
Context {B : Builtins}.

Lemma fold_two_same_key (a b : Feature) :
  Prebake.featureKey a = Prebake.featureKey b ->
  foldl Prebake.addUnique JSMap.empty [a; b] = [(Prebake.featureKey a, a)].
Proof.
  intros Hk. simpl. unfold Prebake.addUnique at 2. simpl.
  unfold Prebake.addUnique. rewrite <-Hk. unfold JSMap.has. simpl.
  by rewrite decide_True.
Qed.

Lemma addFeatures_two_same_key (a b : Feature) (mk : string) :
  Ingest.toMonthKey (properties a !! "acq_date") = Some mk ->
  Ingest.toMonthKey (properties b !! "acq_date") = Some mk ->
  Ingest.featureKey a = Ingest.featureKey b ->
  Ingest.addFeatures JSMap.empty [a; b] = Some [(mk, [(Ingest.featureKey a, b)])].
Proof.
  intros Ha Hb Hk. simpl. unfold Ingest.addFeature. rewrite Ha, Hb. simpl.
  rewrite <-Hk. unfold JSMap.has. repeat (simpl; rewrite decide_True by done). done.
Qed.

(** C2 (amended).  In the prebake tool, folding a feature whose key the
    bucket already holds leaves the bucket unchanged, so of two features with
    equal keys the first one folded is the one in the month's output.  In
    the batch-import tool the fold keeps the keys of the month's bucket as
    they are but stores the later feature under the key. *)
Theorem dedup_first_seen_in_prebake :
  (forall (uniq : JSMap.t Feature) (f : Feature),
     JSMap.has (Prebake.featureKey f) uniq = true ->
     Prebake.addUnique uniq f = uniq) /\
  (forall a b : Feature,
     Prebake.featureKey a = Prebake.featureKey b ->
     JSMap.values (foldl Prebake.addUnique JSMap.empty [a; b]) = [a]) /\
  (forall (buckets : JSMap.t (JSMap.t Feature)) (f : Feature) (mk : string),
     Ingest.toMonthKey (properties f !! "acq_date") = Some mk ->
     JSMap.has (Ingest.featureKey f) (default JSMap.empty (JSMap.get mk buckets)) = true ->
     exists buckets',
       Ingest.addFeature buckets f = Some buckets' /\
       Ingest.monthKeys buckets' mk = Ingest.monthKeys buckets mk /\
       JSMap.get (Ingest.featureKey f) (default JSMap.empty (JSMap.get mk buckets')) = Some f).
Proof.
  split; [|split].
  - apply addUnique_present.
  - intros a b Hk. by rewrite fold_two_same_key.
  - intros buckets f mk Hmk Hk.
    destruct (addFeature_some buckets f mk Hmk) as [buckets' Hadd].
    exists buckets'. split; [done|]. split.
    + rewrite (addFeature_monthKeys _ _ _ _ mk Hmk Hadd), decide_True, Hk; done.
    + revert Hadd. unfold Ingest.addFeature. rewrite Hmk. intros [= <-].
      rewrite get_set, decide_True by done. simpl. by rewrite get_set, decide_True.
Qed.

(** C10.  Two features with equal 4-decimal coordinates, equal acquisition
    date and time, and no (or an empty) instrument and satellite get the
    same key, in which the two missing fields read as the empty string; the
    two are one entry of the bucket. *)
Theorem featureKey_missing_instrument_satellite (a b : Feature) :
  toFixed4 (coordinates a).1 = toFixed4 (coordinates b).1 ->
  toFixed4 (coordinates a).2 = toFixed4 (coordinates b).2 ->
  properties a !! "acq_date" = properties b !! "acq_date" ->
  properties a !! "acq_time" = properties b !! "acq_time" ->
  absentOrEmpty (properties a !! "instrument") ->
  absentOrEmpty (properties b !! "instrument") ->
  absentOrEmpty (properties a !! "satellite") ->
  absentOrEmpty (properties b !! "satellite") ->
  Prebake.featureKey a =
    toFixed4 (coordinates a).1 +:+ ":" +:+ toFixed4 (coordinates a).2 +:+ ":" +:+
    ToString (properties a !! "acq_date") +:+ ":" +:+
    ToString (properties a !! "acq_time") +:+ ":" +:+ "" +:+ ":" +:+ "" /\
  Prebake.featureKey a = Prebake.featureKey b /\
  Ingest.featureKey a = Ingest.featureKey b /\
  foldl Prebake.addUnique JSMap.empty [a; b] = [(Prebake.featureKey a, a)] /\
  (forall mk, Ingest.toMonthKey (properties a !! "acq_date") = Some mk ->
              Ingest.addFeatures JSMap.empty [a; b] =
              Some [(mk, [(Ingest.featureKey a, b)])]).
Proof.
  intros Hlon Hlat Hdate Htime Hia Hib Hsa Hsb.
  assert (forall v, absentOrEmpty v -> ToString (v ||' Some (Str "")) = "") as Hempty.
  { by intros v [-> | ->]. }
  assert (Prebake.featureKey a =
    toFixed4 (coordinates a).1 +:+ ":" +:+ toFixed4 (coordinates a).2 +:+ ":" +:+
    ToString (properties a !! "acq_date") +:+ ":" +:+
    ToString (properties a !! "acq_time") +:+ ":" +:+ "" +:+ ":" +:+ "") as Hka.
  { unfold Prebake.featureKey. destruct (coordinates a) as [lon lat]. simpl.
    by rewrite !Hempty. }
  assert (Prebake.featureKey a = Prebake.featureKey b) as Hk.
  { rewrite Hka. unfold Prebake.featureKey.
    destruct (coordinates a) as [lon lat], (coordinates b) as [lon' lat'].
    simpl in *. by rewrite !Hempty, Hlon, Hlat, Hdate, Htime. }
  split; [done|]. split; [done|]. split; [done|]. split.
  - by apply fold_two_same_key.
  - intros mk Hmk. apply addFeatures_two_same_key; [done| by rewrite <-Hdate | done].
Qed.
End DedupClaims.

Section DedupExamples.
#[local] Existing Instance exampleBuiltins.

Lemma dedup_first_seen_in_prebake_witness :
  Prebake.addUnique [(Prebake.featureKey terraA, terraA)] terraB =
    [(Prebake.featureKey terraA, terraA)] /\
  JSMap.values (foldl Prebake.addUnique JSMap.empty [terraA; terraB]) = [terraA].
Proof.
  split.
  - apply (proj1 dedup_first_seen_in_prebake). vm_compute. reflexivity.
  - apply (proj1 (proj2 dedup_first_seen_in_prebake)). vm_compute. reflexivity.
Defined.

(** Two features of a collection file with one key and different radiative
    powers: the batch-import tool keeps the second. *)
Lemma ingest_dedup_keeps_last :
  Ingest.loadCollection californiaBox [terraA; terraB] = [terraA; terraB] /\
  Ingest.featureKey terraA = Ingest.featureKey terraB /\
  terraA <> terraB /\
  Ingest.addFeatures JSMap.empty [terraA] =
    Some [("2023-02", [("-120.2500:34.5000:2023-02-03:0930:MODIS:Terra", terraA)])] /\
  Ingest.addFeature
     [("2023-02", [("-120.2500:34.5000:2023-02-03:0930:MODIS:Terra", terraA)])] terraB =
    Some [("2023-02", [("-120.2500:34.5000:2023-02-03:0930:MODIS:Terra", terraB)])] /\
  Ingest.monthFeatures [("2023-02", [("-120.2500:34.5000:2023-02-03:0930:MODIS:Terra", terraB)])]
    "2023-02" = [terraB].
Proof.
  split; [by vm_compute|]. split; [by vm_compute|]. split.
  - intros H. apply (f_equal (fun f => properties f !! "frp")) in H.
    vm_compute in H. discriminate.
  - split; [by vm_compute|]. split; by vm_compute.
Qed.

Lemma featureKey_missing_instrument_satellite_witness :
  coordinates bareA <> coordinates bareB /\
  Prebake.featureKey bareA = "-120.2500:34.5000:2023-02-03:0930::" /\
  Prebake.featureKey bareA = Prebake.featureKey bareB /\
  foldl Prebake.addUnique JSMap.empty [bareA; bareB] =
    [("-120.2500:34.5000:2023-02-03:0930::", bareA)].
Proof.
  destruct (featureKey_missing_instrument_satellite bareA bareB)
    as (Hk & Hab & _ & Hfold & _);
    try (vm_compute; reflexivity); try (left; vm_compute; reflexivity).
  split; [|split; [|split]].
  - intros H. vm_compute in H. discriminate.
  - rewrite Hk. vm_compute. reflexivity.
  - exact Hab.
  - rewrite Hfold. vm_compute. reflexivity.
Defined.
End DedupExamples.

(** ** The status in the text of an error *)

Section ErrorTextFacts.
Import ErrorText.
Import Prebake.

Lemma pretty_N_char_digit (d : N) : isDigit (pretty_N_char d) = true.
Proof. unfold pretty_N_char. by repeat case_match. Qed.

Lemma pretty_N_go_digits (x : N) (s : string) :
  allDigits s = true -> allDigits (pretty_N_go x s) = true.
Proof.
  revert s. induction (N.lt_wf_0 x) as [x _ IH]; intros s Hs.
  assert (x = 0 \/ 0 < x)%N as [->|Hx] by lia.
  - by rewrite pretty_N_go_0.
  - rewrite pretty_N_go_step by done. apply IH; [by apply N.div_lt|].
    simpl. by rewrite pretty_N_char_digit.
Qed.

Lemma pretty_N_go_nonempty (x : N) (s : string) :
  (0 < x)%N -> pretty_N_go x s <> "".
Proof.
  revert s. induction (N.lt_wf_0 x) as [x _ IH]; intros s Hx.
  rewrite pretty_N_go_step by done.
  destruct (N.eq_0_gt_0_cases (x `div` 10)) as [->|Hq].
  - by rewrite pretty_N_go_0.
  - apply IH; [by apply N.div_lt|done].
Qed.

Lemma pretty_N_digits (n : N) : allDigits (pretty n) = true /\ pretty n <> "".
Proof.
  unfold pretty, pretty_N. destruct (decide (n = 0%N)) as [->|Hn]; [done|].
  split; [by apply pretty_N_go_digits|apply pretty_N_go_nonempty; lia].
Qed.

Lemma span_digits (ds r : string) :
  allDigits ds = true ->
  (match r with String c _ => isDigit c = false | "" => True end) ->
  span isDigit (ds +:+ r) = (ds, r).
Proof.
  intros Hds Hr. induction ds as [|c ds IH]; simpl in *.
  - destruct r as [|c r]; [done|]. simpl. by rewrite Hr.
  - apply andb_true_iff in Hds as [-> Hds]. by rewrite IH.
Qed.

Lemma exec_here (s digits : string) : matchHere s = Some digits -> exec s = Some digits.
Proof. intros Hmatch. destruct s; cbn [exec]; by rewrite Hmatch. Qed.

Lemma exec_errorMessage (status : N) (args : Request) :
  exec (errorMessage status args) = Some (pretty status).
Proof.
  destruct (pretty_N_digits status) as [Hdigits Hne].
  unfold errorMessage.
  set (rest := " (" +:+ _).
  assert (matchHere ("HTTP " +:+ pretty status +:+ rest) = Some (pretty status)) as Hmatch.
  { unfold matchHere. simpl.
    destruct (pretty status) as [|c ds] eqn:Hp; [done|].
    simpl in Hdigits. apply andb_true_iff in Hdigits as [Hc Hds].
    assert (isSpace c = false) as Hs.
    { unfold isDigit, isSpace in *. destruct (N_of_ascii c) as [|p]; [done|].
      apply andb_true_iff in Hc as [H1%N.leb_le H2%N.leb_le].
      repeat (apply orb_false_iff; split); try apply andb_false_iff;
        try (right; apply N.leb_gt; lia); apply N.eqb_neq; lia. }
    change ("" +:+ String c ds +:+ rest) with (String c (ds +:+ rest)).
    cbn [span]. rewrite Hs. cbn [String.eqb span]. rewrite Hc.
    rewrite (span_digits ds rest Hds) by done. done. }
  by apply exec_here.
Qed.
Lemma pretty_N_char_value (d : N) : (d < 10)%N -> (N_of_ascii (pretty_N_char d) - 48 = d)%N.
Proof.
  intros Hd.
  assert (d = 0 \/ d = 1 \/ d = 2 \/ d = 3 \/ d = 4 \/ d = 5 \/ d = 6 \/ d = 7 \/
          d = 8 \/ d = 9)%N as Hc by lia.
  destruct Hc as [->|[->|[->|[->|[->|[->|[->|[->|[->| ->]]]]]]]]]; reflexivity.
Qed.

Lemma decimalValue_pretty_go (x : N) (s : string) :
  decimalValue (pretty_N_go x s) = (x * 10 ^ N.of_nat (String.length s) + decimalValue s)%N.
Proof.
  revert s. induction (N.lt_wf_0 x) as [x _ IH]; intros s.
  destruct (N.eq_0_gt_0_cases x) as [->|Hx].
  - rewrite pretty_N_go_0. lia.
  - rewrite pretty_N_go_step by done. rewrite IH by (by apply N.div_lt).
    cbn [decimalValue String.length].
    rewrite pretty_N_char_value by (apply N.mod_lt; lia).
    rewrite Nat2N.inj_succ, N.pow_succ_r'.
    rewrite (N.div_mod x 10) at 3 by done. ring.
Qed.

Lemma decimalValue_pretty (n : N) : decimalValue (pretty n) = n.
Proof.
  unfold pretty, pretty_N. destruct (decide (n = 0%N)) as [->|Hn]; [done|].
  rewrite decimalValue_pretty_go. simpl. lia.
Qed.

(** The status read back from the error of [fetchSlice] is the status of the
    answer. *)
Lemma httpStatus_errorMessage (status : N) (args : Request) :
  httpStatusFromError (JSError (errorMessage status args)) =
  Some status.
Proof.
  unfold httpStatusFromError. cbn [message].
  rewrite exec_errorMessage. cbn [fmap option_fmap option_map].
  by rewrite decimalValue_pretty.
Qed.
End ErrorTextFacts.

(** ** The retrying fetcher *)

Section Fetcher.
Import Prebake.
Context {B : Builtins}.
Variable cfg : Config.
Variable args : Request.

Lemma attemptsFrom_cons (n : Z) :
  n <= MAX_RETRIES cfg -> attemptsFrom cfg n = n :: attemptsFrom cfg (n + 1).
Proof.
  intros Hn. unfold attemptsFrom. rewrite seqZ_cons by lia.
  f_equal. f_equal; lia.
Qed.

Lemma attemptsFrom_nil (n : Z) : MAX_RETRIES cfg < n -> attemptsFrom cfg n = [].
Proof. intros Hn. unfold attemptsFrom. apply seqZ_nil. lia. Qed.

Lemma attemptsFrom_length (n : Z) :
  length (attemptsFrom cfg n) = Z.to_nat (MAX_RETRIES cfg + 1 - n).
Proof. unfold attemptsFrom. apply length_seqZ. Qed.

Lemma isRateLimit_not_ok (status : N) (body : Body) :
  isRateLimit (Reply status body) = true ->
  ok status = false /\ isLimit (Some status) = true.
Proof.
  simpl. intros [H | H]%orb_true_iff; apply N.eqb_eq in H; subst; done.
Qed.

(** One turn of the loop on a rate-limited answer: the request is made, the
    backoff is slept, and the loop goes on with the attempts left. *)
Lemma retryLoop_limited (attempt : Z) (later : list Z) (w : World) :
  isRateLimit (upstream w (length (requests w)) args) = true ->
  retryLoop cfg args (attempt :: later) w =
  retryLoop cfg args later (logSleep (backoff attempt) (logRequest args w)).
Proof.
  intros Hlim. cbn [retryLoop]. unfold try_catch, bind, fetchSlice, bind, fetch.
  destruct (upstream w (length (requests w)) args) as [msg|status body]; [done|].
  apply isRateLimit_not_ok in Hlim as [Hok Hl].
  rewrite Hok. cbn [negb]. unfold throw. by rewrite httpStatus_errorMessage, Hl.
Qed.

(** One turn of the loop on a good answer: the features are returned after
    the pacing delay. *)
Lemma retryLoop_success (attempt : Z) (later : list Z) (w : World)
    (status : N) (rows : list obj) :
  upstream w (length (requests w)) args = Reply status (Csv rows) ->
  ok status = true ->
  retryLoop cfg args (attempt :: later) w =
  (Ok (rowToFeature <$> rows), logSleep (THROTTLE_MS cfg) (logRequest args w)).
Proof.
  intros Hup Hok. cbn [retryLoop]. unfold try_catch, bind, fetchSlice, bind, fetch.
  by rewrite Hup, Hok.
Qed.

(** One turn of the loop on any other failure: the error is thrown again at
    once. *)
Lemma retryLoop_other_error (attempt : Z) (later : list Z) (w : World)
    (status : N) (body : Body) :
  upstream w (length (requests w)) args = Reply status body ->
  ok status = false -> isLimit (Some status) = false ->
  retryLoop cfg args (attempt :: later) w =
  (Thrown (JSError (errorMessage status args)), logRequest args w).
Proof.
  intros Hup Hok Hl. cbn [retryLoop]. unfold try_catch, bind, fetchSlice, bind, fetch.
  rewrite Hup, Hok. cbn [negb]. unfold throw. by rewrite httpStatus_errorMessage, Hl.
Qed.

(** The loop never throws a rate-limit error: it throws again only what is
    not one. *)
Lemma retryLoop_never_throws_limit (attempts : list Z) (w w' : World) (e : Error) :
  retryLoop cfg args attempts w = (Thrown e, w') ->
  isLimit (httpStatusFromError e) = false.
Proof.
  revert w. induction attempts as [|attempt later IH]; intros w; [done|].
  cbn [retryLoop]. unfold try_catch at 1.
  destruct (bind (fetchSlice args) _ w) as [[out|err] w1] eqn:Hbody.
  - done.
  - destruct (isLimit (httpStatusFromError err)) eqn:Hl.
    + unfold bind, sleep. apply IH.
    + unfold throw. by intros [= <- _].
Qed.

Lemma retryLoop_all_limited (attempts : list Z) (w : World) :
  (forall i : nat, (i < length attempts)%nat ->
     isRateLimit (upstream w (length (requests w) + i) args) = true) ->
  retryLoop cfg args attempts w =
  (Ok [], {| upstream := upstream w;
             requests := replicate (length attempts) args ++ requests w;
             sleeps := reverse (backoff <$> attempts) ++ sleeps w;
             files := files w |}).
Proof.
  revert w. induction attempts as [|attempt later IH]; intros w Hlim.
  - by destruct w.
  - rewrite retryLoop_limited.
    2:{ specialize (Hlim 0%nat). rewrite Nat.add_0_r in Hlim. apply Hlim. simpl. lia. }
    rewrite IH.
    + simpl. f_equal. f_equal.
      * rewrite app_comm_cons.
        change (args :: replicate (length later) args)
          with (replicate (S (length later)) args).
        rewrite (replicate_S_end (length later) args), <-app_assoc. done.
      * rewrite reverse_cons, <-app_assoc. done.
    + intros i Hi. simpl.
      replace (S (length (requests w) + i))%nat with (length (requests w) + S i)%nat by lia.
      apply Hlim. simpl. lia.
Qed.

(** C7.  On attempt [n] (from 0 to [MAX_RETRIES]) a rate-limited answer makes
    the fetcher sleep [min(120000, 15000 * (n + 1))] milliseconds, a delay
    that grows by 15000 per attempt up to the cap of 120000, and go on in
    state [Attempting (n + 1)] if [n + 1 <= MAX_RETRIES], in state
    [Exhausted], which returns no feature, otherwise. *)
Theorem backoff_then_next_attempt (n : Z) (w : World) :
  0 <= n <= MAX_RETRIES cfg ->
  isRateLimit (upstream w (length (requests w)) args) = true ->
  resume cfg args (Attempting n) w =
    resume cfg args (nextAttempt cfg n) (logSleep (backoff n) (logRequest args w)) /\
  backoff n = Z.min 120000 (15000 * (n + 1)) /\
  (n <= 7 -> backoff n = 15000 * (n + 1)) /\
  (7 <= n -> backoff n = 120000) /\
  (n + 1 <= MAX_RETRIES cfg -> nextAttempt cfg n = Attempting (n + 1)) /\
  (MAX_RETRIES cfg < n + 1 ->
     nextAttempt cfg n = Exhausted /\
     forall w', resume cfg args Exhausted w' = (Ok [], w')).
Proof.
  intros [Hn0 Hn] Hlim. split; [|split; [|split; [|split; [|split]]]].
  - unfold resume at 1. rewrite attemptsFrom_cons, retryLoop_limited by done.
    unfold nextAttempt. destruct (Z.leb_spec (n + 1) (MAX_RETRIES cfg)); [done|].
    by rewrite attemptsFrom_nil.
  - done.
  - unfold backoff. lia.
  - unfold backoff. lia.
  - intros H. unfold nextAttempt. by rewrite (proj2 (Z.leb_le _ _) H).
  - intros H. unfold nextAttempt. by rewrite (proj2 (Z.leb_gt _ _) H).
Qed.

(** C4 (amended).  With [MAX_RETRIES = 4], five rate-limited answers in a row
    exhaust the fetcher: it has made five requests, slept the five backoff
    delays, and returns the empty list instead of throwing. *)
Theorem five_rate_limits_exhaust (w : World) :
  MAX_RETRIES cfg = 4 ->
  (forall i : nat, (i < 5)%nat ->
     isRateLimit (upstream w (length (requests w) + i) args) = true) ->
  fetchSliceRetry cfg args w =
  (Ok [], {| upstream := upstream w;
             requests := replicate 5 args ++ requests w;
             sleeps := [75000; 60000; 45000; 30000; 15000] ++ sleeps w;
             files := files w |}).
Proof.
  intros Hmax Hlim. unfold fetchSliceRetry.
  rewrite retryLoop_all_limited; rewrite attemptsFrom_length, Hmax.
  - unfold attemptsFrom. rewrite Hmax. done.
  - exact Hlim.
Qed.
End Fetcher.

Section FetcherExamples.
Import Prebake.
#[local] Existing Instance exampleBuiltins.

Lemma backoff_then_next_attempt_witness :
  resume (exampleConfig true) exampleRequest (Attempting 3) (freshWorld alwaysLimited ∅) =
  resume (exampleConfig true) exampleRequest (Attempting 4)
    (logSleep 60000 (logRequest exampleRequest (freshWorld alwaysLimited ∅))).
Proof.
  apply (backoff_then_next_attempt (exampleConfig true) exampleRequest 3
           (freshWorld alwaysLimited ∅)).
  - simpl. lia.
  - reflexivity.
Defined.

Lemma five_rate_limits_exhaust_witness :
  (fetchSliceRetry (exampleConfig true) exampleRequest (freshWorld alwaysLimited ∅)).1 = Ok [].
Proof.
  rewrite (five_rate_limits_exhaust (exampleConfig true) exampleRequest
             (freshWorld alwaysLimited ∅)); [reflexivity | reflexivity | ].
  intros i _. reflexivity.
Defined.

(** Four rate-limited answers with [MAX_RETRIES = 4] leave the fetcher
    attempting: the fifth request is made, and its answer is the result. *)
Lemma four_rate_limits_then_row :
  MAX_RETRIES (exampleConfig true) = 4 /\
  (forall i : nat, (i < 4)%nat ->
     isRateLimit (limitedThenRow 4 i exampleRequest) = true) /\
  let r := fetchSliceRetry (exampleConfig true) exampleRequest
             (freshWorld (limitedThenRow 4) ∅) in
  r.1 = Ok [terraA] /\
  requests r.2 = replicate 5 exampleRequest /\
  sleeps r.2 = [800; 60000; 45000; 30000; 15000].
Proof.
  split; [reflexivity|]. split.
  - intros i Hi. unfold limitedThenRow.
    by rewrite (proj2 (Nat.ltb_lt _ _) Hi).
  - vm_compute. done.
Qed.
End FetcherExamples.

(** ** The feature normalizers *)

Section Normalizer.
Context {B : Builtins}.

(** C3 (amended).  The normalizer of the batch-import tool rejects a row
    exactly when its latitude or longitude does not read as a finite number
    or the bounding box refuses the coordinate, and a rejected row gives no
    feature.  The normalizer of the prebake tool checks nothing: every row
    becomes a feature whose coordinates are the longitude and latitude as
    read. *)
Theorem rowToFeature_rejection (box : Ingest.Box) (row : obj) :
  let lat := Number (row !! "latitude" ?? row !! "Latitude" ?? row !! "lat") in
  let lon := Number (row !! "longitude" ?? row !! "Longitude" ?? row !! "lon") in
  (isFinite lat = false \/ isFinite lon = false \/ Ingest.isInBox box lon lat = false <->
   Ingest.rowToFeature box row = None) /\
  (forall f, Ingest.rowToFeature box row = Some f -> f ∈ Ingest.loadRows box [row]) /\
  (Ingest.rowToFeature box row = None -> Ingest.loadRows box [row] = []) /\
  coordinates (Prebake.rowToFeature row) =
    (Number (row !! "longitude"), Number (row !! "latitude")) /\
  (forall rows : list obj, length (Prebake.rowToFeature <$> rows) = length rows).
Proof.
  intros lat lon. split; [|split; [|split; [|split]]].
  - unfold Ingest.rowToFeature. fold lat lon.
    destruct (isFinite lat), (isFinite lon), (Ingest.isInBox box lon lat); simpl;
      split; try done; try tauto; intros [|[|]]; done.
  - intros f Hf. unfold Ingest.loadRows. simpl. rewrite Hf. apply list_elem_of_here.
  - intros Hf. unfold Ingest.loadRows. simpl. by rewrite Hf.
  - done.
  - intros rows. apply length_fmap.
Qed.
End Normalizer.

Section NormalizerExamples.
#[local] Existing Instance exampleBuiltins.

Lemma rowToFeature_rejection_witness :
  Ingest.rowToFeature californiaBox (<["latitude" := Str "north"]> (terraRow "12.5")) = None /\
  Ingest.rowToFeature californiaBox (<["longitude" := Str "-100.5"]> (terraRow "12.5")) = None.
Proof.
  split.
  - apply (rowToFeature_rejection californiaBox). left. reflexivity.
  - apply (rowToFeature_rejection californiaBox). right. right. reflexivity.
Defined.

(** The prebake tool makes a feature of a row whose latitude is not a
    number. *)
Lemma prebake_keeps_unparseable_row :
  let row := <["latitude" := Str "north"]> (terraRow "12.5") in
  isFinite (Number (row !! "latitude")) = false /\
  (Prebake.fetchSlice exampleRequest
     (Prebake.freshWorld (fun _ _ => Prebake.Reply 200 (Prebake.Csv [row])) ∅)).1 =
    Prebake.Ok [Prebake.rowToFeature row] /\
  coordinates (Prebake.rowToFeature row) = (Fin (-12025 # 100), NaN).
Proof. split; [|split]; reflexivity. Qed.
End NormalizerExamples.

(** ** The window planner *)

Section Planner.
Import Prebake.

Lemma monthLength_bounds (y mn : Z) : 28 <= monthLength y mn <= 31.
Proof. unfold monthLength. repeat (case_match; try lia). Qed.

Lemma daysBefore_bounds (y mn : Z) : 0 <= mn <= 11 -> 0 <= daysBefore y mn <= 335.
Proof.
  intros Hmn.
  assert (mn = 0 \/ mn = 1 \/ mn = 2 \/ mn = 3 \/ mn = 4 \/ mn = 5 \/ mn = 6 \/ mn = 7 \/
          mn = 8 \/ mn = 9 \/ mn = 10 \/ mn = 11) as Hcases by lia.
  unfold daysBefore.
  destruct Hcases as [->|[->|[->|[->|[->|[->|[->|[->|[->|[->|[->| ->]]]]]]]]]]].
  all: match goal with
       | |- context [seqZ ?a ?b] =>
           let l := eval vm_compute in (seqZ a b) in change (seqZ a b) with l
       end.
  all: cbn; destruct (isLeap y); lia.
Qed.

(** The year that [Date.UTC] makes of [y] *)
Lemma dayFromYear_in_range (yr : Z) :
  -271820 <= yr <= 275759 -> -99999744 <= dayFromYear yr <= 99999379.
Proof. intros Hyr. unfold dayFromYear. Z.to_euclidean_division_equations. lia. Qed.

(** For the years all of whose months a [Date] holds, the date is a
    number: the length of the month. *)
Lemma daysInMonth_in_range (y m : Z) :
  -271820 <= y <= 275759 -> 1 <= m <= 12 ->
  daysInMonth y m =
  Some (monthLength (if (0 <=? y) && (y <=? 99) then 1900 + y else y) (m - 1)).
Proof.
  intros Hy Hm. unfold daysInMonth.
  assert ((m - 1) / 12 = 0) as -> by (apply Z.div_small; lia).
  rewrite Z.mod_small by lia. rewrite Z.add_0_r.
  set (yr := if (0 <=? y) && (y <=? 99) then 1900 + y else y).
  assert (-271820 <= yr <= 275759) as Hyr.
  { unfold yr. destruct ((0 <=? y) && (y <=? 99)) eqn:Htwo; [|done].
    apply andb_true_iff in Htwo as [?%Z.leb_le ?%Z.leb_le]. lia. }
  pose proof (dayFromYear_in_range yr Hyr).
  pose proof (daysBefore_bounds yr (m - 1)).
  pose proof (monthLength_bounds yr (m - 1)).
  cbv zeta. rewrite (proj2 (Z.leb_le _ _)); [done|]. unfold DATE_RANGE. lia.
Qed.

Lemma daysInMonth_calendar (y m : Z) :
  -271820 <= y <= 275759 -> y <> 0 -> 1 <= m <= 12 ->
  daysInMonth y m = Some (calendarDays y m).
Proof.
  intros Hy Hy0 Hm. rewrite daysInMonth_in_range by done. f_equal.
  unfold calendarDays.
  assert (m = 1 \/ m = 2 \/ m = 3 \/ m = 4 \/ m = 5 \/ m = 6 \/ m = 7 \/ m = 8 \/
          m = 9 \/ m = 10 \/ m = 11 \/ m = 12) as Hcases by lia.
  destruct Hcases as [->|[->|[->|[->|[->|[->|[->|[->|[->|[->|[->| ->]]]]]]]]]]];
    try reflexivity.
  simpl. unfold isLeap.
  destruct ((0 <=? y) && (y <=? 99)) eqn:Htwo; [|done].
  apply andb_true_iff in Htwo as [Hlo%Z.leb_le Hhi%Z.leb_le].
  (* two-digit years are read as 1900 + y, which is leap exactly when y is *)
  assert ((1900 + y) mod 4 = y mod 4) as ->.
  { replace (1900 + y) with (y + 475 * 4) by lia. apply Z.mod_add. lia. }
  assert (((1900 + y) mod 100 =? 0) = false) as ->.
  { apply Z.eqb_neq. replace (1900 + y) with (y + 19 * 100) by lia.
    rewrite Z.mod_add, Z.mod_small by lia. lia. }
  assert ((y mod 100 =? 0) = false) as ->.
  { apply Z.eqb_neq. rewrite Z.mod_small by lia. lia. }
  done.
Qed.

Lemma daysInMonth_bounds (y m dim : Z) : daysInMonth y m = Some dim -> 28 <= dim <= 31.
Proof.
  unfold daysInMonth. cbv zeta. case_match; [|done].
  intros [= <-]. apply monthLength_bounds.
Qed.

(** Beyond the last year that a [Date] holds the date is NaN. *)
Lemma daysInMonth_beyond (y m : Z) :
  275761 <= y -> 1 <= m <= 12 -> daysInMonth y m = None.
Proof.
  intros Hy Hm. unfold daysInMonth.
  assert ((m - 1) / 12 = 0) as -> by (apply Z.div_small; lia).
  rewrite Z.mod_small by lia. rewrite Z.add_0_r.
  rewrite (proj2 (andb_false_iff _ _)) by (right; apply Z.leb_gt; lia).
  pose proof (daysBefore_bounds y (m - 1)).
  pose proof (monthLength_bounds y (m - 1)).
  assert (100000110 <= dayFromYear y).
  { unfold dayFromYear. Z.to_euclidean_division_equations. lia. }
  cbv zeta. rewrite (proj2 (Z.leb_gt _ _)); [done|]. unfold DATE_RANGE. lia.
Qed.

(** Two digits with [padStart] are the two digits of the number. *)
Lemma pad2_twoDigits (n : Z) : 0 <= n <= 99 -> pad2 n = twoDigits n.
Proof.
  intros Hn. rewrite <-(Z2Nat.id n) by lia.
  assert (Z.to_nat n < 100)%nat as Hk by lia. revert Hk.
  generalize (Z.to_nat n). intros k Hk.
  do 100 (destruct k as [|k]; [reflexivity|]). lia.
Qed.

(** The spans of the windows are those of the plan. *)
Lemma windowsFrom_spans (turns : nat) (y m dim dayMax d : Z) :
  dayRange <$> windowsFrom turns y m dim dayMax d = snd <$> dayPlan turns dim dayMax d.
Proof.
  revert d. induction turns as [|turns IH]; intros d; simpl; [done|].
  destruct (d <=? dim); [|done]. by rewrite !fmap_cons, IH.
Qed.

(** The windows are those of the plan, each starting on the date of its
    first day. *)
Lemma windowsFrom_dayPlan (turns : nat) (y m dim dayMax d : Z) :
  0 <= m <= 99 -> dim <= 99 -> 0 <= dayMax -> 0 <= d ->
  windowsFrom turns y m dim dayMax d =
  (fun p => windowOn y m p.1 p.2) <$> dayPlan turns dim dayMax d.
Proof.
  intros Hm Hdim Hmax. revert d. induction turns as [|turns IH]; intros d Hd; simpl; [done|].
  destruct (Z.leb_spec d dim); [|done].
  rewrite fmap_cons, IH by lia. f_equal.
  unfold windowOn, isoDate. simpl. by rewrite !pad2_twoDigits by lia.
Qed.

Lemma dayPlan_past_end (turns : nat) (dim dayMax d : Z) :
  dim < d -> dayPlan turns dim dayMax d = [].
Proof.
  intros Hd. destruct turns; simpl; [done|].
  by rewrite (proj2 (Z.leb_gt _ _) Hd).
Qed.

(** With enough turns the loop runs until [d] is past the month, and the
    windows cover the days from [d] to the end, each once and in order. *)
Lemma dayPlan_days (turns : nat) (dim dayMax d : Z) :
  1 <= dayMax -> d <= dim + 1 -> dim - d + 1 <= Z.of_nat turns ->
  concat (daysOf <$> dayPlan turns dim dayMax d) = seqZ d (dim - d + 1).
Proof.
  intros Hmax. revert d. induction turns as [|turns IH]; intros d Hd Hturns.
  - simpl. symmetry. apply seqZ_nil. lia.
  - simpl. destruct (Z.leb_spec d dim) as [Hle|Hgt].
    + rewrite fmap_cons. simpl. unfold daysOf at 1. simpl.
      destruct (Z.le_gt_cases (d + dayMax) (dim + 1)) as [Hmore|Hlast].
      * rewrite IH by lia. rewrite Z.min_l by lia.
        replace (seqZ d (dim - d + 1))
          with (seqZ d (dayMax + (dim - (d + dayMax) + 1))) by (f_equal; lia).
        by rewrite (seqZ_app d dayMax (dim - (d + dayMax) + 1)) by lia.
      * rewrite dayPlan_past_end by lia. rewrite Z.min_r by lia.
        simpl. by rewrite app_nil_r.
    + simpl. symmetry. apply seqZ_nil. lia.
Qed.

Lemma dayPlan_lookup (turns : nat) (dim dayMax d : Z) (i : nat) (d' span : Z) :
  1 <= dayMax ->
  dayPlan turns dim dayMax d !! i = Some (d', span) ->
  d' = d + Z.of_nat i * dayMax /\ 1 <= span <= dayMax /\
  ((S i < length (dayPlan turns dim dayMax d))%nat -> span = dayMax).
Proof.
  intros Hmax. revert d i. induction turns as [|turns IH]; intros d i; simpl; [done|].
  destruct (Z.leb_spec d dim) as [Hle|Hgt]; [|done].
  destruct i as [|i]; simpl.
  - intros [= <- <-]. split; [lia|]. split; [lia|].
    intros Hlen. destruct turns; simpl in Hlen; [lia|].
    destruct (Z.leb_spec (d + dayMax) dim); simpl in Hlen; lia.
  - intros Hi. destruct (IH _ _ Hi) as (-> & Hspan & Hfull).
    split; [lia|]. split; [done|]. intros Hlen. apply Hfull. lia.
Qed.

(** C6.  For a year all of whose months a [Date] holds, a month from 1 to 12
    and a span ceiling of at least one day, the month has a length [dim],
    which is its length in the Gregorian calendar, leap years included (but
    for the year 0, which [Date.UTC] reads as 1900), and the windows are made
    from a plan of start days and spans that covers the days 1 to [dim] once
    each and in order: window [i] starts on day [1 + i * dayMax], on the date
    written [YYYY-MM-DD] with month and day in two digits, every window but
    the last spans [dayMax] days and the last spans what is left.  A month of
    31 days under a ceiling of 10 gives the spans 10, 10, 10, 1 from the days
    1, 11, 21, 31, a month of 28 days the spans 10, 10, 8. *)
Theorem planWindows_partitions_month (y m dayMax : Z) :
  -271820 <= y <= 275759 -> 1 <= m <= 12 -> 1 <= dayMax ->
  exists (dim : Z) (plan : list (Z * Z)),
    daysInMonth y m = Some dim /\
    (y <> 0 -> dim = calendarDays y m) /\
    planWindows y m dayMax =
      (fun p => {| startDateISO := isoDate y m p.1; dayRange := p.2 |}) <$> plan /\
    concat (daysOf <$> plan) = seqZ 1 dim /\
    (forall (i : nat) (d span : Z), plan !! i = Some (d, span) ->
       d = 1 + Z.of_nat i * dayMax /\ 1 <= span <= dayMax /\
       ((S i < length plan)%nat -> span = dayMax)) /\
    (dayMax = 10 -> dim = 31 -> plan = [(1, 10); (11, 10); (21, 10); (31, 1)]) /\
    (dayMax = 10 -> dim = 28 -> plan = [(1, 10); (11, 10); (21, 8)]).
Proof.
  intros Hy Hm Hmax.
  destruct (daysInMonth y m) as [dim|] eqn:Hdim;
    [|by rewrite daysInMonth_in_range in Hdim].
  pose proof (daysInMonth_bounds y m dim Hdim) as Hbounds.
  exists dim, (dayPlan (Z.to_nat dim) dim dayMax 1).
  split; [done|]. split; [|split; [|split; [|split; [|split]]]].
  - intros Hy0. rewrite daysInMonth_calendar in Hdim by done. by injection Hdim.
  - unfold planWindows. rewrite Hdim. apply windowsFrom_dayPlan; lia.
  - rewrite dayPlan_days by lia. f_equal. lia.
  - intros i d span Hi. by apply dayPlan_lookup in Hi.
  - intros -> ->. reflexivity.
  - intros -> ->. reflexivity.
Qed.

Lemma planWindows_partitions_month_witness :
  planWindows 2024 1 DAY_MAX =
    [ {| startDateISO := "2024-01-01"; dayRange := 10 |};
      {| startDateISO := "2024-01-11"; dayRange := 10 |};
      {| startDateISO := "2024-01-21"; dayRange := 10 |};
      {| startDateISO := "2024-01-31"; dayRange := 1 |} ] /\
  planWindows 2023 2 DAY_MAX =
    [ {| startDateISO := "2023-02-01"; dayRange := 10 |};
      {| startDateISO := "2023-02-11"; dayRange := 10 |};
      {| startDateISO := "2023-02-21"; dayRange := 8 |} ] /\
  daysInMonth 2024 2 = Some 29 /\ daysInMonth 2023 2 = Some 28 /\
  daysInMonth 1900 2 = Some 28.
Proof.
  destruct (planWindows_partitions_month 2024 1 DAY_MAX)
    as (d31 & p31 & Hd31 & _ & H31 & _ & _ & Hp31 & _); [lia | lia | unfold DAY_MAX; lia |].
  destruct (planWindows_partitions_month 2023 2 DAY_MAX)
    as (d28 & p28 & Hd28 & _ & H28 & _ & _ & _ & Hp28); [lia | lia | unfold DAY_MAX; lia |].
  injection Hd31 as <-. injection Hd28 as <-.
  rewrite H31, H28, Hp31, Hp28 by reflexivity.
  repeat split; reflexivity.
Defined.
End Planner.

(** ** The month assembler *)

Section Assembler.
Import Prebake.
Context {B : Builtins}.
Variable cfg : Config.

(** A loop keeps an invariant of its variables and the world that its body
    keeps, and returns if the body always does. *)
Lemma forOf_invariant {A S} (P : S -> World -> Prop) (body : S -> A -> Async S)
    (xs : list A) :
  (forall s x w, x ∈ xs -> P s w -> exists s' w', body s x w = (Ok s', w') /\ P s' w') ->
  forall s w, P s w -> exists s' w', forOf xs body s w = (Ok s', w') /\ P s' w'.
Proof.
  induction xs as [|x xs IH]; intros Hbody s w Hs; simpl.
  - by exists s, w.
  - unfold bind. destruct (Hbody s x w) as (s1 & w1 & -> & Hs1); [by left|done|].
    apply IH; [|done]. intros s2 x2 w2 Hx2. apply Hbody. by right.
Qed.

(** What a loop returns satisfies what its body keeps, when it returns. *)
Lemma forOf_returned {A S} (P : S -> Prop) (body : S -> A -> Async S) (xs : list A) :
  (forall s x w s' w', P s -> body s x w = (Ok s', w') -> P s') ->
  forall s w s' w', P s -> forOf xs body s w = (Ok s', w') -> P s'.
Proof.
  intros Hbody. induction xs as [|x xs IH]; intros s w s' w' Hs; simpl.
  - by intros [= <- _].
  - unfold bind. destruct (body s x w) as [[s1|e] w1] eqn:Hstep; [|done].
    apply IH. by eapply Hbody.
Qed.

Lemma startOf_plain (source : string) :
  source ∉ inheritedNames -> exists start, startOf source = Some start.
Proof.
  intros Hplain. unfold startOf. destruct (SOURCE_START !! source); [by eexists|].
  rewrite bool_decide_false by done. by eexists.
Qed.

(** The flag [sawLimit] is never set: [fetchSliceRetry] throws no rate-limit
    error for the handler of [fetchWindow] to see. *)
Lemma fetchWindow_returns (source : string) (st : JSMap.t Feature * bool)
    (win : Window) (w : World) :
  st.2 = false ->
  exists st' w', fetchWindow cfg source st win w = (Ok st', w') /\ st'.2 = false.
Proof.
  destruct st as [uniq sawLimit]. simpl. intros ->.
  unfold fetchWindow, try_catch, bind.
  destruct (fetchSliceRetry cfg _ w) as [[feats|err] w1] eqn:Hfetch.
  - by eexists _, _.
  - apply retryLoop_never_throws_limit in Hfetch. rewrite Hfetch.
    by eexists _, _.
Qed.

Lemma fetchSource_returns (monthKey : string) (windows : list Window)
    (st : JSMap.t Feature * bool) (source : string) (w : World) :
  source ∉ inheritedNames ->
  st.2 = false ->
  exists st' w', fetchSource cfg monthKey windows st source w = (Ok st', w') /\ st'.2 = false.
Proof.
  intros [start Hstart]%startOf_plain Hst. unfold fetchSource. rewrite Hstart.
  destruct (ymLt _ _).
  - by exists st, w.
  - apply (forOf_invariant (fun st _ => st.2 = false)); [|done].
    intros. by apply fetchWindow_returns.
Qed.

(** Whatever the sources, the flag is unset in what the loop over a source
    returns. *)
Lemma fetchSource_unset (monthKey : string) (windows : list Window)
    (st st' : JSMap.t Feature * bool) (source : string) (w w' : World) :
  st.2 = false ->
  fetchSource cfg monthKey windows st source w = (Ok st', w') -> st'.2 = false.
Proof.
  intros Hst. unfold fetchSource. destruct (startOf source) as [start|]; [|done].
  destruct (ymLt _ _); [by intros [= <- _]|].
  apply (forOf_returned (fun st => st.2 = false)); [|done].
  intros s win w1 s' w1' Hs Hstep.
  destruct (fetchWindow_returns source s win w1 Hs) as (s2 & w2 & Hrun & Hs2). congruence.
Qed.

(** With sources that are no inherited names, assembling a month never
    throws and always ends in a write. *)
Lemma assembleMonth_writes (y m : Z) (monthKey outfile : string) (w : World) :
  plainSources cfg ->
  exists uniq w1,
    assembleMonth cfg y m monthKey outfile w =
    (Ok (Written (JSMap.size uniq)),
     {| upstream := upstream w1; requests := requests w1; sleeps := sleeps w1;
        files := <[outfile := Collection (JSMap.values uniq)]> (files w1) |}).
Proof.
  intros Hplain. unfold assembleMonth, bind.
  destruct (forOf_invariant (fun (st : JSMap.t Feature * bool) _ => st.2 = false)
              (fetchSource cfg monthKey (planWindows y m DAY_MAX)) (SOURCES cfg))
    with (s := (@JSMap.empty Feature, false)) (w := w)
    as ([uniq sawLimit] & w1 & -> & Hs); [|done|].
  { intros s source w1 Hsource Hs. apply fetchSource_returns; [|done].
    by apply (proj1 (Forall_forall _ _) Hplain). }
  simpl in Hs. subst sawLimit. unfold finishMonth. simpl. rewrite andb_false_r.
  by exists uniq, w1.
Qed.

(** The test that ends [prebakeMonth] does defer an empty bucket when
    [sawLimit] is set; no run reaches it with the flag set. *)
Lemma finishMonth_defers (outfile : string) (w : World) :
  finishMonth outfile JSMap.empty true w = (Ok Deferred, w).
Proof. done. Qed.

Lemma assembleMonth_never_defers (y m : Z) (monthKey outfile : string) (w w' : World)
    (r : Result Decision) :
  assembleMonth cfg y m monthKey outfile w = (r, w') ->
  (exists count, r = Ok (Written count)) \/ (exists e, r = Thrown e).
Proof.
  unfold assembleMonth, bind.
  destruct (forOf _ _ _ w) as [[[uniq sawLimit]|e] w1] eqn:Hloop.
  - apply (forOf_returned (fun st => st.2 = false)) in Hloop; [|  |done].
    2:{ intros s source w2 s' w2' Hs. by apply fetchSource_unset. }
    simpl in Hloop. subst sawLimit. unfold finishMonth. simpl. rewrite andb_false_r.
    intros [= <- _]. left. eauto.
  - intros [= <- _]. right. eauto.
Qed.

Lemma existingSkips_absent (outfile : string) (w : World) :
  files w !! outfile = None -> existingSkips cfg outfile w = (Ok false, w).
Proof.
  intros Hf. unfold existingSkips, bind, pathExists. rewrite Hf.
  rewrite bool_decide_false; [done|]. by intros [? ?].
Qed.

Lemma existingSkips_present (outfile : string) (w : World) (content : Blob) :
  files w !! outfile = Some content ->
  existingSkips cfg outfile w =
  (Ok (if negb (retryEmpty cfg) then true
       else match featureCount (Some content) with
            | None => false
            | Some n => (0 <? n)%nat
            end), w).
Proof.
  intros Hf. unfold existingSkips, bind, pathExists. rewrite Hf.
  rewrite bool_decide_true by eauto.
  destruct (retryEmpty cfg); cbn [negb]; [|done].
  unfold readExistingCount. rewrite Hf.
  destruct (featureCount (Some content)) as [n|]; [|done].
  by destruct (0 <? n)%nat.
Qed.

(** Under an endpoint that only answers rate limits, a window adds nothing
    to the bucket and leaves [sawLimit] as it was. *)
Lemma fetchWindow_all_limited (source : string) (st : JSMap.t Feature * bool)
    (win : Window) (w : World) :
  allLimited w ->
  exists w', fetchWindow cfg source st win w = (Ok st, w') /\
             allLimited w' /\ files w' = files w.
Proof.
  intros Hlim. destruct st as [uniq sawLimit].
  unfold fetchWindow, try_catch, bind, fetchSliceRetry.
  rewrite retryLoop_all_limited by (intros; apply Hlim).
  eexists. split; [done|]. split; [|done]. exact Hlim.
Qed.

Lemma fetchSource_all_limited (monthKey : string) (windows : list Window)
    (st : JSMap.t Feature * bool) (source : string) (w : World) :
  source ∉ inheritedNames ->
  allLimited w ->
  exists w', fetchSource cfg monthKey windows st source w = (Ok st, w') /\
             allLimited w' /\ files w' = files w.
Proof.
  intros [start Hstart]%startOf_plain Hlim. unfold fetchSource. rewrite Hstart.
  destruct (ymLt _ _).
  - by exists w.
  - destruct (forOf_invariant
                (fun s w' => s = st /\ allLimited w' /\ files w' = files w)
                (fetchWindow cfg source) windows) with (s := st) (w := w)
      as (s' & w' & Hrun & -> & Hw'); [|done|by exists w'].
    intros s win w1 _ (-> & Hl1 & Hf1).
    destruct (fetchWindow_all_limited source st win w1 Hl1) as (w2 & -> & Hl2 & Hf2).
    exists st, w2. by rewrite Hf2.
Qed.

(** Whatever the month and the configuration, as long as no source is an
    inherited name: if the month has no file yet and every request is
    answered with a rate limit, the month is written with no feature. *)
Lemma prebakeMonth_all_limited (y m : Z) (w : World) :
  plainSources cfg ->
  allLimited w ->
  files w !! outfileOf cfg y m = None ->
  exists w', prebakeMonth cfg y m w = (Ok (Written 0), w') /\
             files w' = <[outfileOf cfg y m := Collection []]> (files w).
Proof.
  intros Hplain Hlim Hnone. unfold prebakeMonth, bind.
  rewrite existingSkips_absent by done.
  unfold assembleMonth, bind.
  destruct (forOf_invariant
              (fun s w' => s = (@JSMap.empty Feature, false) /\
                           allLimited w' /\ files w' = files w)
              (fetchSource cfg (monthKeyOf y m) (planWindows y m DAY_MAX)) (SOURCES cfg))
    with (s := (@JSMap.empty Feature, false)) (w := w)
    as (s' & w' & -> & -> & Hl' & Hf'); [|done|].
  - intros s source w1 Hsource (-> & Hl1 & Hf1).
    destruct (fetchSource_all_limited (monthKeyOf y m) (planWindows y m DAY_MAX)
                (JSMap.empty, false) source w1) as (w2 & -> & Hl2 & Hf2);
      [by apply (proj1 (Forall_forall _ _) Hplain) | done |].
    eexists _, w2. by rewrite Hf2.
  - eexists. split; [reflexivity|]. simpl. by rewrite Hf'.
Qed.

End Assembler.

Section AssemblerExamples.
Import Prebake.
#[local] Existing Instance exampleBuiltins.

Lemma exampleConfig_plain (retryEmpty : bool) : plainSources (exampleConfig retryEmpty).
Proof.
  unfold plainSources. simpl. apply Forall_singleton.
  apply (bool_decide_unpack _). vm_compute. reflexivity.
Qed.



(** C1, which the code does not satisfy.  Every request of February 2023 is
    answered 429: all three windows exhaust their five attempts, the bucket
    is empty, and the month file, which did not exist, is written with no
    feature instead of being left for a later run. *)
Theorem rate_limited_month_is_written_empty :
  let w := freshWorld alwaysLimited ∅ in
  let r := prebakeMonth (exampleConfig true) 2023 2 w in
  allLimited w /\
  r.1 = Ok (Written 0) /\
  length (requests r.2) = 15%nat /\
  files w !! exampleOutfile = None /\
  files r.2 !! exampleOutfile = Some (Collection []).
Proof. split; [done|]. vm_compute. done. Qed.
End AssemblerExamples.

(** * Further properties *)

(** ** More on maps in insertion order *)

Section JSMapMore.
Context {V : Type}.
Implicit Types (m : JSMap.t V) (k : string) (v : V).

Lemma set_absent k v m : JSMap.has k m = false -> JSMap.set k v m = m ++ [(k, v)].
Proof.
  unfold JSMap.has. induction m as [|[k0 v0] m IH]; [done|].
  cbn [JSMap.set JSMap.get]. destruct (decide (k0 = k)); [done|].
  intros Hk. by rewrite IH.
Qed.

Lemma set_set k v m : JSMap.set k v (JSMap.set k v m) = JSMap.set k v m.
Proof.
  induction m as [|[k0 v0] m IH]; cbn [JSMap.set].
  - by rewrite decide_True.
  - destruct (decide (k0 = k)) as [->|Hne]; cbn [JSMap.set].
    + by rewrite decide_True.
    + by rewrite decide_False, IH.
Qed.

Lemma keys_set_NoDup k v m : NoDup (JSMap.keys m) -> NoDup (JSMap.keys (JSMap.set k v m)).
Proof.
  intros Hnd. rewrite keys_set. destruct (JSMap.has k m) eqn:Hk; [done|].
  apply NoDup_app. split; [done|]. split; [|apply NoDup_singleton].
  intros x Hx ->%list_elem_of_singleton. apply has_keys in Hx. congruence.
Qed.

Lemma elem_of_set_inv k v m k' v' :
  (k', v') ∈ JSMap.set k v m -> (k' = k /\ v' = v) \/ (k', v') ∈ m.
Proof.
  induction m as [|[k0 v0] m IH]; cbn [JSMap.set].
  - intros [= -> ->]%list_elem_of_singleton. by left.
  - destruct (decide (k0 = k)) as [->|Hne].
    + intros [[= -> ->]|Hin]%elem_of_cons; [by left|]. right. by right.
    + intros [[= -> ->]|Hin]%elem_of_cons; [right; by left|].
      destruct (IH Hin) as [?|?]; [by left|]. right. by right.
Qed.

Lemma get_elem_of k v m : JSMap.get k m = Some v -> (k, v) ∈ m.
Proof.
  induction m as [|[k0 v0] m IH]; cbn [JSMap.get]; [done|].
  destruct (decide (k0 = k)) as [->|Hne].
  - intros [= ->]. by left.
  - intros Hget. right. by apply IH.
Qed.

Lemma elem_of_get k v m : NoDup (JSMap.keys m) -> (k, v) ∈ m -> JSMap.get k m = Some v.
Proof.
  unfold JSMap.keys. induction m as [|[k0 v0] m IH]; [by intros _ ?%elem_of_nil|].
  rewrite fmap_cons. intros [Hk0 Hnd]%NoDup_cons. cbn [JSMap.get].
  intros [[= -> ->]|Hin]%elem_of_cons.
  - by rewrite decide_True.
  - rewrite decide_False; [by apply IH|].
    intros ->. apply Hk0. apply list_elem_of_fmap. by exists (k, v).
Qed.
End JSMapMore.

(** ** More on deduplication *)

Section DedupMore.
Context {B : Builtins}.

Lemma addUnique_absent (uniq : JSMap.t Feature) (f : Feature) :
  JSMap.has (Prebake.featureKey f) uniq = false ->
  Prebake.addUnique uniq f = uniq ++ [(Prebake.featureKey f, f)].
Proof. intros Hk. unfold Prebake.addUnique. rewrite Hk. simpl. by apply set_absent. Qed.

Lemma addUnique_has (uniq : JSMap.t Feature) (f : Feature) :
  JSMap.has (Prebake.featureKey f) (Prebake.addUnique uniq f) = true.
Proof.
  unfold Prebake.addUnique. destruct (JSMap.has _ uniq) eqn:Hk; simpl; [done|].
  by rewrite has_set, decide_True.
Qed.


Lemma addUnique_keyedBucket (uniq : JSMap.t Feature) (f : Feature) :
  keyedBucket uniq -> keyedBucket (Prebake.addUnique uniq f).
Proof.
  intros [Hnd Hkeys]. destruct (JSMap.has (Prebake.featureKey f) uniq) eqn:Hk.
  - by rewrite addUnique_present.
  - rewrite addUnique_absent by done. unfold keyedBucket, JSMap.keys, JSMap.values in *.
    rewrite !fmap_app. simpl. rewrite <-Hkeys. split; [|done].
    apply NoDup_app. split; [done|]. split; [|apply NoDup_singleton].
    intros x Hx ->%list_elem_of_singleton. apply has_keys in Hx. congruence.
Qed.

Lemma fold_addUnique_keyedBucket (fs : list Feature) (uniq : JSMap.t Feature) :
  keyedBucket uniq -> keyedBucket (foldl Prebake.addUnique uniq fs).
Proof.
  revert uniq. induction fs as [|f fs IH]; intros uniq Hu; [done|].
  simpl. by apply IH, addUnique_keyedBucket.
Qed.

Lemma fold_addUnique_values (fs : list Feature) (uniq : JSMap.t Feature) (f : Feature) :
  f ∈ JSMap.values (foldl Prebake.addUnique uniq fs) -> f ∈ JSMap.values uniq \/ f ∈ fs.
Proof.
  revert uniq. induction fs as [|g fs IH]; intros uniq; simpl; [by left|].
  intros [Hin|Hin]%IH; [|right; by right].
  destruct (JSMap.has (Prebake.featureKey g) uniq) eqn:Hk.
  - rewrite addUnique_present in Hin by done. by left.
  - rewrite addUnique_absent in Hin by done. unfold JSMap.values in Hin.
    rewrite fmap_app in Hin. apply elem_of_app in Hin as [Hin|Hin]; [by left|].
    apply list_elem_of_singleton in Hin as ->. right. by left.
Qed.

Lemma fold_addUnique_size (fs : list Feature) (uniq : JSMap.t Feature) :
  (JSMap.size uniq <= JSMap.size (foldl Prebake.addUnique uniq fs)
     <= JSMap.size uniq + length fs)%nat.
Proof.
  revert uniq. induction fs as [|g fs IH]; intros uniq; simpl; [lia|].
  specialize (IH (Prebake.addUnique uniq g)).
  destruct (JSMap.has (Prebake.featureKey g) uniq) eqn:Hk.
  - rewrite addUnique_present in * by done. lia.
  - rewrite addUnique_absent in * by done. unfold JSMap.size in *.
    rewrite length_app in IH. simpl in IH. lia.
Qed.

(** X1.  The month's output holds one feature for each key met, every one of them
    a feature that was fetched, and no more features than were fetched. *)
Theorem fold_addUnique_output (fs : list Feature) :
  let out := JSMap.values (foldl Prebake.addUnique JSMap.empty fs) in
  NoDup (Prebake.featureKey <$> out) /\
  (forall f, f ∈ out -> f ∈ fs) /\
  (forall f, f ∈ fs -> Prebake.featureKey f ∈ Prebake.featureKey <$> out) /\
  (length out <= length fs)%nat.
Proof.
  intros out.
  destruct (fold_addUnique_keyedBucket fs JSMap.empty) as [Hnd Hkeys].
  { split; [apply NoDup_nil_2 | done]. }
  fold out in Hkeys. split; [by rewrite <-Hkeys|]. split; [|split].
  - intros f Hf. apply fold_addUnique_values in Hf as [Hf|Hf]; [|done].
    by apply elem_of_nil in Hf.
  - intros f Hf. rewrite <-Hkeys.
    assert (Prebake.featureKey f ∈
            (list_to_set (JSMap.keys (foldl Prebake.addUnique JSMap.empty fs)) : gset string))
      as Hin; [|by apply elem_of_list_to_set in Hin].
    rewrite fold_addUnique_keyset. apply elem_of_union_r, elem_of_list_to_set.
    by apply list_elem_of_fmap_2.
  - pose proof (fold_addUnique_size fs JSMap.empty) as Hsize.
    unfold out, JSMap.values. rewrite length_fmap. unfold JSMap.size in Hsize. simpl in Hsize. lia.
Qed.

Lemma fold_addUnique_fresh (fs : list Feature) (uniq : JSMap.t Feature) :
  NoDup (Prebake.featureKey <$> fs) ->
  (forall f, f ∈ fs -> JSMap.has (Prebake.featureKey f) uniq = false) ->
  foldl Prebake.addUnique uniq fs = uniq ++ ((fun f => (Prebake.featureKey f, f)) <$> fs).
Proof.
  revert uniq. induction fs as [|g fs IH]; intros uniq Hnd Hfresh; simpl.
  - by rewrite app_nil_r.
  - rewrite fmap_cons in Hnd. apply NoDup_cons in Hnd as [Hg Hnd].
    rewrite addUnique_absent by (apply Hfresh; by left).
    rewrite IH; [by rewrite <-app_assoc | done |].
    intros f Hf. destruct (JSMap.has _ _) eqn:Hk; [|done].
    apply has_keys in Hk. unfold JSMap.keys in Hk. rewrite fmap_app in Hk.
    apply elem_of_app in Hk as [Hk|Hk].
    + apply has_keys in Hk. rewrite Hfresh in Hk; [done|by right].
    + simpl in Hk. apply list_elem_of_singleton in Hk.
      destruct Hg. rewrite <-Hk. by apply list_elem_of_fmap_2.
Qed.

(** X2.  Features with pairwise different keys all reach the output, in the order
    they were fetched. *)
Theorem fold_addUnique_distinct (fs : list Feature) :
  NoDup (Prebake.featureKey <$> fs) ->
  JSMap.values (foldl Prebake.addUnique JSMap.empty fs) = fs.
Proof.
  intros Hnd. rewrite fold_addUnique_fresh by done. simpl.
  unfold JSMap.values. rewrite <-list_fmap_compose. apply list_fmap_id.
Qed.

(** X3.  The number of features written does not depend on the order in which
    they were fetched, nor does the set of their keys. *)
Theorem fold_addUnique_permutation (fs fs' : list Feature) :
  fs ≡ₚ fs' ->
  list_to_set (JSMap.keys (foldl Prebake.addUnique JSMap.empty fs)) =@{gset string}
  list_to_set (JSMap.keys (foldl Prebake.addUnique JSMap.empty fs')) /\
  JSMap.size (foldl Prebake.addUnique JSMap.empty fs) =
  JSMap.size (foldl Prebake.addUnique JSMap.empty fs').
Proof.
  intros Hperm.
  assert (list_to_set (JSMap.keys (foldl Prebake.addUnique JSMap.empty fs)) =@{gset string}
          list_to_set (JSMap.keys (foldl Prebake.addUnique JSMap.empty fs'))) as Hset.
  { rewrite !fold_addUnique_keyset. f_equal. apply set_eq. intros k.
    rewrite !elem_of_list_to_set. by rewrite Hperm. }
  split; [done|].
  destruct (fold_addUnique_keyedBucket fs JSMap.empty) as [Hnd _].
  { split; [apply NoDup_nil_2 | done]. }
  destruct (fold_addUnique_keyedBucket fs' JSMap.empty) as [Hnd' _].
  { split; [apply NoDup_nil_2 | done]. }
  assert (forall u : JSMap.t Feature, NoDup (JSMap.keys u) ->
            JSMap.size u = size (list_to_set (JSMap.keys u) : gset string)) as Hsize.
  { intros u Hu. rewrite size_list_to_set by done.
    unfold JSMap.size, JSMap.keys. by rewrite length_fmap. }
  rewrite !Hsize by done.
  by rewrite Hset.
Qed.
End DedupMore.

(** ** More on the retrying fetcher *)

Section FetcherMore.
Import Prebake.
Context {B : Builtins}.
Variable cfg : Config.
Variable args : Request.

Lemma fetchSlice_outcome (w : World) :
  fetchSlice args w =
  (sliceOutcome args (upstream w (length (requests w)) args), logRequest args w).
Proof.
  unfold fetchSlice, bind, fetch, sliceOutcome.
  destruct (upstream w (length (requests w)) args) as [msg|status body]; [done|].
  destruct (ok status); [|done]. by destruct body.
Qed.

(** One turn of the loop *)
Lemma retryLoop_step (attempt : Z) (later : list Z) (w : World) :
  retryLoop cfg args (attempt :: later) w =
  match sliceOutcome args (upstream w (length (requests w)) args) with
  | Ok out => (Ok out, logSleep (THROTTLE_MS cfg) (logRequest args w))
  | Thrown e =>
      if isLimit (httpStatusFromError e)
      then retryLoop cfg args later (logSleep (backoff attempt) (logRequest args w))
      else (Thrown e, logRequest args w)
  end.
Proof.
  cbn [retryLoop]. unfold try_catch, bind at 1. rewrite fetchSlice_outcome.
  destruct (sliceOutcome args _) as [out|e]; [done|].
  by destruct (isLimit (httpStatusFromError e)).
Qed.

Lemma isRateLimit_retried (r : Response) : isRateLimit r = true -> retried args r = true.
Proof.
  destruct r as [msg|status body]; [done|]. intros [Hok Hl]%isRateLimit_not_ok.
  unfold retried, sliceOutcome. rewrite Hok. cbn [negb].
  by rewrite httpStatus_errorMessage.
Qed.

Lemma retryLoop_retried_prefix (pre post : list Z) (w : World) :
  (forall i : nat, (i < length pre)%nat ->
     retried args (upstream w (length (requests w) + i) args) = true) ->
  retryLoop cfg args (pre ++ post) w = retryLoop cfg args post (afterLimited args pre w).
Proof.
  revert w. induction pre as [|attempt pre IH]; intros w Hlim.
  - by destruct w.
  - simpl app. rewrite retryLoop_step.
    assert (retried args (upstream w (length (requests w)) args) = true) as Hfirst.
    { specialize (Hlim 0%nat). rewrite Nat.add_0_r in Hlim. apply Hlim. simpl. lia. }
    unfold retried in Hfirst.
    destruct (sliceOutcome args _) as [out|e]; [done|]. rewrite Hfirst.
    rewrite IH.
    + f_equal. unfold afterLimited. simpl. f_equal.
      * rewrite app_comm_cons.
        change (args :: replicate (length pre) args)
          with (replicate (S (length pre)) args).
        by rewrite (replicate_S_end (length pre) args), <-app_assoc.
      * by rewrite reverse_cons, <-app_assoc.
    + intros i Hi. simpl.
      replace (S (length (requests w) + i))%nat with (length (requests w) + S i)%nat by lia.
      apply Hlim. simpl. lia.
Qed.

Lemma attemptsFrom_split (k : nat) :
  Z.of_nat k <= MAX_RETRIES cfg ->
  attemptsFrom cfg 0 = seqZ 0 (Z.of_nat k) ++ Z.of_nat k :: attemptsFrom cfg (Z.of_nat k + 1).
Proof.
  intros Hk. rewrite <-attemptsFrom_cons by done. unfold attemptsFrom.
  replace (MAX_RETRIES cfg + 1 - 0) with (Z.of_nat k + (MAX_RETRIES cfg + 1 - Z.of_nat k)) by lia.
  rewrite seqZ_app by lia. done.
Qed.


(** X5.  After up to [MAX_RETRIES] answers that are retried, an answer that
    [fetchSlice] accepts is returned, one request and one backoff having
    been made for each answer retried, and the pacing delay slept last. *)
Theorem fetchSliceRetry_recovers (k : nat) (out : list Feature) (w : World) :
  Z.of_nat k <= MAX_RETRIES cfg ->
  (forall i : nat, (i < k)%nat ->
     retried args (upstream w (length (requests w) + i) args) = true) ->
  sliceOutcome args (upstream w (length (requests w) + k) args) = Ok out ->
  fetchSliceRetry cfg args w =
  (Ok out,
   {| upstream := upstream w;
      requests := replicate (S k) args ++ requests w;
      sleeps := THROTTLE_MS cfg :: reverse (backoff <$> seqZ 0 (Z.of_nat k)) ++ sleeps w;
      files := files w |}).
Proof.
  intros Hk Hlim Hup. unfold fetchSliceRetry.
  rewrite (attemptsFrom_split k Hk), retryLoop_retried_prefix.
  2:{ intros i Hi. apply Hlim. rewrite length_seqZ in Hi. lia. }
  rewrite retryLoop_step.
  assert (length (requests (afterLimited args (seqZ 0 (Z.of_nat k)) w)) =
          (length (requests w) + k)%nat) as ->.
  { unfold afterLimited. simpl.
    rewrite length_app, length_replicate, length_seqZ, Nat2Z.id. lia. }
  change (upstream (afterLimited args (seqZ 0 (Z.of_nat k)) w)) with (upstream w).
  rewrite Hup. f_equal. unfold afterLimited, logSleep, logRequest. simpl.
  by rewrite length_seqZ, Nat2Z.id.
Qed.

(** X6.  After up to [MAX_RETRIES] answers that are retried, a failure that
    is not retried is thrown at once, without another sleep. *)
Theorem fetchSliceRetry_fast_fail (k : nat) (e : Error) (w : World) :
  Z.of_nat k <= MAX_RETRIES cfg ->
  (forall i : nat, (i < k)%nat ->
     retried args (upstream w (length (requests w) + i) args) = true) ->
  sliceOutcome args (upstream w (length (requests w) + k) args) = Thrown e ->
  isLimit (httpStatusFromError e) = false ->
  fetchSliceRetry cfg args w =
  (Thrown e,
   {| upstream := upstream w;
      requests := replicate (S k) args ++ requests w;
      sleeps := reverse (backoff <$> seqZ 0 (Z.of_nat k)) ++ sleeps w;
      files := files w |}).
Proof.
  intros Hk Hlim Hup Hother. unfold fetchSliceRetry.
  rewrite (attemptsFrom_split k Hk), retryLoop_retried_prefix.
  2:{ intros i Hi. apply Hlim. rewrite length_seqZ in Hi. lia. }
  rewrite retryLoop_step.
  assert (length (requests (afterLimited args (seqZ 0 (Z.of_nat k)) w)) =
          (length (requests w) + k)%nat) as ->.
  { unfold afterLimited. simpl.
    rewrite length_app, length_replicate, length_seqZ, Nat2Z.id. lia. }
  change (upstream (afterLimited args (seqZ 0 (Z.of_nat k)) w)) with (upstream w).
  rewrite Hup, Hother. f_equal. unfold afterLimited, logRequest. simpl.
  by rewrite length_seqZ, Nat2Z.id.
Qed.

(** What a run of the loop leaves behind: requests for [args] only, at most
    one per attempt, each followed by a sleep unless it made the loop throw;
    the endpoint and the files are as before. *)
Lemma retryLoop_footprint (attempts : list Z) (w w' : World) (r : Result (list Feature)) :
  retryLoop cfg args attempts w = (r, w') ->
  upstream w' = upstream w /\ files w' = files w /\
  exists k : nat,
    (k <= length attempts)%nat /\ (attempts <> [] -> 1 <= k)%nat /\
    requests w' = replicate k args ++ requests w /\
    (length (sleeps w') + (if r is Thrown _ then 1 else 0) = length (sleeps w) + k)%nat.
Proof.
  revert w. induction attempts as [|attempt later IH]; intros w.
  - intros [= <- <-]. repeat split; try done. exists 0%nat. simpl. repeat split; try done; lia.
  - rewrite retryLoop_step.
    destruct (sliceOutcome args _) as [out|e].
    + intros [= <- <-]. repeat split; try done.
      exists 1%nat. simpl. repeat split; try done; lia.
    + destruct (isLimit (httpStatusFromError e)).
      * intros Hrest. apply IH in Hrest as (Hu & Hf & k & Hk & _ & Hreq & Hsl).
        simpl in *. repeat split; try done.
        exists (S k). repeat split; [lia | lia | |].
        -- rewrite Hreq. rewrite replicate_S_end, <-app_assoc. done.
        -- simpl in Hsl. lia.
      * intros [= <- <-]. repeat split; try done.
        exists 1%nat. simpl. repeat split; try done; lia.
Qed.

(** X7.  [fetchSliceRetry] asks for its own slice only, at most
    [MAX_RETRIES + 1] times, sleeps after every request that does not make it
    throw, and touches no file. *)
Theorem fetchSliceRetry_footprint (w w' : World) (r : Result (list Feature)) :
  fetchSliceRetry cfg args w = (r, w') ->
  upstream w' = upstream w /\ files w' = files w /\
  exists k : nat,
    Z.of_nat k <= Z.max 0 (MAX_RETRIES cfg + 1) /\
    (0 <= MAX_RETRIES cfg -> (1 <= k)%nat) /\
    requests w' = replicate k args ++ requests w /\
    (length (sleeps w') + (if r is Thrown _ then 1 else 0) = length (sleeps w) + k)%nat.
Proof.
  intros Hrun. apply retryLoop_footprint in Hrun as (Hu & Hf & k & Hk & Hk1 & Hreq & Hsl).
  rewrite attemptsFrom_length in Hk.
  split; [done|]. split; [done|]. exists k. split; [lia|]. split; [|done].
  intros Hmax. apply Hk1. intros Hnil.
  apply (f_equal length) in Hnil. rewrite attemptsFrom_length in Hnil. simpl in Hnil. lia.
Qed.
End FetcherMore.

Section FetcherMoreExamples.
Import Prebake.
#[local] Existing Instance exampleBuiltins.


Lemma fetchSliceRetry_recovers_witness :
  let r := fetchSliceRetry (exampleConfig true) exampleRequest
             (freshWorld (limitedThenRow 2) ∅) in
  r.1 = Ok [terraA] /\ sleeps r.2 = [800; 30000; 15000] /\
  requests r.2 = replicate 3 exampleRequest.
Proof.
  cbv zeta.
  rewrite (fetchSliceRetry_recovers (exampleConfig true) exampleRequest 2 [terraA]
             (freshWorld (limitedThenRow 2) ∅)).
  - repeat split; reflexivity.
  - simpl. lia.
  - intros i Hi. unfold limitedThenRow. simpl.
    by rewrite (proj2 (Nat.ltb_lt _ _) Hi).
  - reflexivity.
Defined.

Lemma fetchSliceRetry_fast_fail_witness :
  let r := fetchSliceRetry (exampleConfig true) exampleRequest
             (freshWorld (limitedThenError 1) ∅) in
  r.1 = Thrown (JSError "HTTP 500 (MODIS_SP 2023-02-01 +9)") /\
  sleeps r.2 = [15000] /\ requests r.2 = replicate 2 exampleRequest.
Proof.
  cbv zeta.
  rewrite (fetchSliceRetry_fast_fail (exampleConfig true) exampleRequest 1
             (JSError "HTTP 500 (MODIS_SP 2023-02-01 +9)")
             (freshWorld (limitedThenError 1) ∅)).
  - repeat split; reflexivity.
  - simpl. lia.
  - intros i Hi. unfold limitedThenError. simpl.
    by rewrite (proj2 (Nat.ltb_lt _ _) Hi).
  - reflexivity.
  - reflexivity.
Defined.

Lemma fetchSliceRetry_footprint_witness :
  let r := fetchSliceRetry (exampleConfig true) exampleRequest
             (freshWorld (limitedThenError 1) ∅) in
  files r.2 = ∅ /\
  exists k : nat, Z.of_nat k <= 5 /\ requests r.2 = replicate k exampleRequest ++ [].
Proof.
  cbv zeta.
  destruct (fetchSliceRetry_footprint (exampleConfig true) exampleRequest
              (freshWorld (limitedThenError 1) ∅)
              (fetchSliceRetry (exampleConfig true) exampleRequest
                 (freshWorld (limitedThenError 1) ∅)).2
              (fetchSliceRetry (exampleConfig true) exampleRequest
                 (freshWorld (limitedThenError 1) ∅)).1)
    as (_ & Hf & k & Hk & _ & Hreq & _); [vm_compute; reflexivity|].
  split; [exact Hf|]. exists k. split; [exact Hk | exact Hreq].
Defined.
End FetcherMoreExamples.

(** ** More on the batch-import tool *)

Section IngestMore.
Context {B : Builtins}.
Import Ingest.


(** The bucket of each month after one more feature *)
Lemma addFeature_bucketOf buckets buckets' (f : Feature) (mk mk' : string) :
  toMonthKey (properties f !! "acq_date") = Some mk ->
  addFeature buckets f = Some buckets' ->
  bucketOf buckets' mk' =
  if decide (mk = mk') then JSMap.set (featureKey f) f (bucketOf buckets mk)
  else bucketOf buckets mk'.
Proof.
  intros Hmk. unfold addFeature, bucketOf. rewrite Hmk. intros [= <-].
  rewrite get_set.
  destruct (JSMap.get mk buckets) as [bucket|] eqn:Hget.
  - assert (JSMap.has mk buckets = true) as -> by (unfold JSMap.has; by rewrite Hget).
    simpl. destruct (decide (mk = mk')); simpl; [by rewrite Hget | done].
  - assert (JSMap.has mk buckets = false) as -> by (unfold JSMap.has; by rewrite Hget).
    simpl. destruct (decide (mk = mk')) as [<-|Hne]; simpl.
    + by rewrite get_set, decide_True.
    + by rewrite get_set, decide_False.
Qed.

Lemma addFeature_monthFeatures buckets (mk : string) :
  monthFeatures buckets mk = JSMap.values (bucketOf buckets mk).
Proof. done. Qed.

(** X8.  Importing a feature a second time changes nothing. *)
Theorem addFeature_idempotent buckets buckets' (f : Feature) :
  addFeature buckets f = Some buckets' -> addFeature buckets' f = Some buckets'.
Proof.
  unfold addFeature.
  destruct (toMonthKey (properties f !! "acq_date")) as [mk|]; [|done].
  intros [= <-]. f_equal.
  set (b0 := if negb (JSMap.has mk buckets) then JSMap.set mk JSMap.empty buckets else buckets).
  set (bucket := JSMap.set (featureKey f) f (default JSMap.empty (JSMap.get mk b0))).
  rewrite has_set, decide_True by done. simpl.
  rewrite get_set, decide_True by done. simpl.
  unfold bucket at 1. rewrite set_set. fold bucket. apply set_set.
Qed.



Lemma addFeature_filedByMonth (seen : list Feature) buckets buckets' (f : Feature) :
  filedByMonth seen buckets -> addFeature buckets f = Some buckets' ->
  filedByMonth (seen ++ [f]) buckets'.
Proof.
  intros Hinv Hadd mk'.
  destruct (toMonthKey (properties f !! "acq_date")) as [mk|] eqn:Hmk;
    [|by rewrite addFeature_none in Hadd].
  rewrite (addFeature_bucketOf _ _ _ _ mk' Hmk Hadd).
  destruct (Hinv mk') as [Hnd Hin].
  destruct (decide (mk = mk')) as [<-|Hne].
  - split; [by apply keys_set_NoDup|].
    intros k g [[-> ->]|Hg]%elem_of_set_inv.
    + repeat split; [done|]. apply elem_of_app. right. by left.
    + destruct (Hin k g Hg) as (? & ? & ?). repeat split; [done..|].
      apply elem_of_app. by left.
  - split; [done|]. intros k g Hg.
    destruct (Hin k g Hg) as (? & ? & ?). repeat split; [done..|].
    apply elem_of_app. by left.
Qed.

Lemma addFeatures_filedByMonth (feats seen : list Feature) buckets buckets' :
  filedByMonth seen buckets -> addFeatures buckets feats = Some buckets' ->
  filedByMonth (seen ++ feats) buckets'.
Proof.
  revert seen buckets. induction feats as [|f feats IH]; intros seen buckets Hinv; cbn [addFeatures].
  - intros [= <-]. by rewrite app_nil_r.
  - destruct (addFeature buckets f) as [b1|] eqn:Hadd; [|done].
    intros Hrest. rewrite (cons_middle f seen feats), app_assoc.
    eapply IH; [|done]. by eapply addFeature_filedByMonth.
Qed.

(** X10.  Every feature of a month's file was imported and was acquired in that
    month, and no two features of the file have the same key. *)
Theorem addFeatures_by_month (feats : list Feature) buckets (mk : string) :
  addFeatures JSMap.empty feats = Some buckets ->
  NoDup (featureKey <$> monthFeatures buckets mk) /\
  forall f, f ∈ monthFeatures buckets mk ->
    f ∈ feats /\ toMonthKey (properties f !! "acq_date") = Some mk.
Proof.
  intros Hadd.
  destruct (addFeatures_filedByMonth feats [] JSMap.empty buckets) with (mk := mk)
    as [Hnd Hin]; [|done|].
  { intros mk'. split; [apply NoDup_nil_2|]. by intros k f ?%elem_of_nil. }
  rewrite addFeature_monthFeatures. split.
  - assert (featureKey <$> JSMap.values (bucketOf buckets mk) = JSMap.keys (bucketOf buckets mk))
      as ->; [|done].
    unfold JSMap.values, JSMap.keys. rewrite <-list_fmap_compose.
    apply list_fmap_ext. intros i [k f] Hi. simpl.
    symmetry. apply (Hin k f). by eapply list_elem_of_lookup_2.
  - intros f Hf. unfold JSMap.values in Hf.
    apply list_elem_of_fmap in Hf as ([k g] & -> & Hg).
    destruct (Hin k g Hg) as (_ & ? & ?). done.
Qed.

Lemma addFeatures_app (xs ys : list Feature) buckets :
  addFeatures buckets (xs ++ ys) =
  match addFeatures buckets xs with
  | Some buckets' => addFeatures buckets' ys
  | None => None
  end.
Proof.
  revert buckets. induction xs as [|x xs IH]; intros buckets; cbn [addFeatures app]; [done|].
  by destruct (addFeature buckets x).
Qed.

Lemma addFeatures_keeps (feats : list Feature) buckets buckets' (mk k : string) :
  addFeatures buckets feats = Some buckets' ->
  (forall g, g ∈ feats -> toMonthKey (properties g !! "acq_date") = Some mk ->
             featureKey g <> k) ->
  JSMap.get k (bucketOf buckets' mk) = JSMap.get k (bucketOf buckets mk).
Proof.
  revert buckets. induction feats as [|g feats IH]; intros buckets; cbn [addFeatures].
  - by intros [= <-].
  - destruct (addFeature buckets g) as [b1|] eqn:Hadd; [|done].
    intros Hrest Hother. rewrite (IH b1 Hrest) by (intros; apply Hother; [by right|done]).
    destruct (toMonthKey (properties g !! "acq_date")) as [mkg|] eqn:Hmk;
      [|by rewrite addFeature_none in Hadd].
    rewrite (addFeature_bucketOf _ _ _ _ mk Hmk Hadd).
    destruct (decide (mkg = mk)) as [->|]; [|done].
    rewrite get_set, decide_False; [done|]. apply Hother; [by left|done].
Qed.

(** X11.  Of the features of one month with one key, the file holds the one that
    was imported last. *)
Theorem addFeatures_last_wins (pre post : list Feature) (f : Feature) buckets (mk : string) :
  addFeatures JSMap.empty (pre ++ f :: post) = Some buckets ->
  toMonthKey (properties f !! "acq_date") = Some mk ->
  (forall g, g ∈ post -> toMonthKey (properties g !! "acq_date") = Some mk ->
             featureKey g <> featureKey f) ->
  JSMap.get (featureKey f) (bucketOf buckets mk) = Some f /\
  f ∈ monthFeatures buckets mk.
Proof.
  intros Hadd Hmk Hlast.
  assert (JSMap.get (featureKey f) (bucketOf buckets mk) = Some f) as Hget.
  { rewrite addFeatures_app in Hadd.
    destruct (addFeatures JSMap.empty pre) as [b1|]; [|done].
    cbn [addFeatures] in Hadd.
    destruct (addFeature b1 f) as [b2|] eqn:Hf; [|done].
    rewrite (addFeatures_keeps post b2 buckets mk _ Hadd Hlast).
    rewrite (addFeature_bucketOf _ _ _ _ mk Hmk Hf), decide_True by done.
    by rewrite get_set, decide_True. }
  split; [done|]. rewrite addFeature_monthFeatures. unfold JSMap.values.
  apply list_elem_of_fmap. exists (featureKey f, f). split; [done|]. by apply get_elem_of.
Qed.

(** X12.  The rows of a delimited-text file that become features have finite
    coordinates that the box accepts, and are no more than the rows. *)
Theorem loadRows_in_box (box : Box) (rows : list obj) :
  (length (loadRows box rows) <= length rows)%nat /\
  forall f, f ∈ loadRows box rows ->
    isFinite (coordinates f).1 = true /\ isFinite (coordinates f).2 = true /\
    isInBox box (coordinates f).1 (coordinates f).2 = true.
Proof.
  split.
  - unfold loadRows. induction rows as [|row rows IH]; simpl; [done|].
    unfold omap in IH. destruct (rowToFeature box row); simpl; lia.
  - intros f Hf. unfold loadRows in Hf. apply list_elem_of_omap in Hf as (row & _ & Hrow).
    unfold rowToFeature in Hrow.
    destruct (isFinite (Number (row !! "latitude" ?? row !! "Latitude" ?? row !! "lat"))) eqn:Hlat;
      [|done].
    destruct (isFinite (Number (row !! "longitude" ?? row !! "Longitude" ?? row !! "lon")))
      eqn:Hlon; [|done].
    simpl in Hrow. destruct (isInBox box _ _) eqn:Hbox; [|done].
    simpl in Hrow. injection Hrow as <-. simpl. done.
Qed.

End IngestMore.

(** ** More on the month assembler *)

Section AssemblerMore.
Import Prebake.
Context {B : Builtins}.
Variable cfg : Config.

Lemma fetchWindow_assembling (y m : Z) (w0 : World) (src : string) (win : Window)
    (st : JSMap.t Feature * bool) (w : World) :
  src ∈ SOURCES cfg -> win ∈ planWindows y m DAY_MAX ->
  assembling cfg y m w0 st w ->
  exists st' w', fetchWindow cfg src st win w = (Ok st', w') /\ assembling cfg y m w0 st' w'.
Proof.
  intros Hsrc Hwin (Hsaw & Hkeyed & Hfiles & Hup & new & Hreq & Hnew).
  destruct st as [uniq sawLimit]. simpl in Hsaw, Hkeyed. subst sawLimit.
  unfold fetchWindow, try_catch, bind.
  destruct (fetchSliceRetry cfg _ w) as [r w1] eqn:Hfetch.
  pose proof Hfetch as Hfoot.
  apply retryLoop_footprint in Hfoot as (Hu1 & Hf1 & k & _ & _ & Hreq1 & _).
  assert (assembling cfg y m w0 (uniq, false) w1 /\
          forall feats, assembling cfg y m w0 (foldl addUnique uniq feats, false) w1)
    as [Hsame Hfold].
  { assert (exists new1, requests w1 = new1 ++ requests w0 /\
                         Forall (monthRequest cfg y m) new1) as Hreqs.
    { exists (replicate k {| source := src; bbox := BBOX cfg; window := win |} ++ new).
      split; [by rewrite Hreq1, Hreq, app_assoc|].
      apply Forall_app. split; [|done]. apply Forall_replicate. by repeat split. }
    split; [|intros feats]; repeat split; simpl;
      try done; try congruence; try apply fold_addUnique_keyedBucket, Hkeyed;
      try apply Hkeyed. }
  destruct r as [feats|err].
  - by eexists _, _.
  - apply retryLoop_never_throws_limit in Hfetch. rewrite Hfetch. by eexists _, _.
Qed.

Lemma fetchSource_assembling (y m : Z) (w0 : World) (monthKey src : string)
    (st : JSMap.t Feature * bool) (w : World) :
  src ∈ SOURCES cfg -> src ∉ inheritedNames ->
  assembling cfg y m w0 st w ->
  exists st' w', fetchSource cfg monthKey (planWindows y m DAY_MAX) st src w = (Ok st', w') /\
                 assembling cfg y m w0 st' w'.
Proof.
  intros Hsrc [start Hstart]%startOf_plain Hst. unfold fetchSource. rewrite Hstart.
  destruct (ymLt _ _); [by exists st, w|].
  apply (forOf_invariant (assembling cfg y m w0)); [|done].
  intros s win w1 Hwin Hs. by apply fetchWindow_assembling.
Qed.

Lemma assembleMonth_assembling (y m : Z) (monthKey outfile : string) (w : World) :
  plainSources cfg ->
  exists uniq w1,
    assembling cfg y m w (uniq, false) w1 /\
    assembleMonth cfg y m monthKey outfile w =
    (Ok (Written (JSMap.size uniq)),
     {| upstream := upstream w1; requests := requests w1; sleeps := sleeps w1;
        files := <[outfile := Collection (JSMap.values uniq)]> (files w1) |}).
Proof.
  intros Hplain. unfold assembleMonth, bind.
  destruct (forOf_invariant (assembling cfg y m w)
              (fetchSource cfg monthKey (planWindows y m DAY_MAX)) (SOURCES cfg))
    with (s := (@JSMap.empty Feature, false)) (w := w)
    as ([uniq sawLimit] & w1 & -> & Hs).
  { intros s src w1 Hsrc Hs. apply fetchSource_assembling; [done| |done].
    by apply (proj1 (Forall_forall _ _) Hplain). }
  { repeat split; simpl; try done; [apply NoDup_nil_2|]. by exists []. }
  pose proof Hs as (Hsaw & _). simpl in Hsaw. subst sawLimit.
  exists uniq, w1. split; [done|].
  unfold finishMonth. simpl. by rewrite andb_false_r.
Qed.

Lemma existingSkips_pure (outfile : string) (w : World) :
  exists skip, existingSkips cfg outfile w = (Ok skip, w) /\
               (skip = true -> is_Some (files w !! outfile)).
Proof.
  destruct (files w !! outfile) as [content|] eqn:Hf.
  - rewrite (existingSkips_present _ _ _ content Hf). eauto.
  - rewrite existingSkips_absent by done. by eexists.
Qed.

(** X14.  When no source is an inherited name, no answer of the endpoint
    makes [prebakeMonth] throw: it skips a month whose file exists, leaving
    the world as it is, or it writes the month's file. *)
Theorem prebakeMonth_never_throws (y m : Z) (w : World) :
  plainSources cfg ->
  exists d w', prebakeMonth cfg y m w = (Ok d, w') /\
    ((d = Skipped /\ w' = w /\ is_Some (files w !! outfileOf cfg y m)) \/
     (exists count, d = Written count /\ is_Some (files w' !! outfileOf cfg y m))).
Proof.
  intros Hplain. unfold prebakeMonth, bind.
  destruct (existingSkips_pure (outfileOf cfg y m) w) as (skip & -> & Hskip).
  destruct skip.
  - exists Skipped, w. split; [done|]. left. auto.
  - destruct (assembleMonth_assembling y m (monthKeyOf y m) (outfileOf cfg y m) w Hplain)
      as (uniq & w1 & _ & ->).
    eexists _, _. split; [done|]. right. eexists. split; [done|].
    simpl. rewrite lookup_insert_eq. eauto.
Qed.

(** X15.  When [prebakeMonth] writes, the month's file holds as many features
    as it reports, no two of them with the same key, and no other file has
    changed. *)
Theorem prebakeMonth_written_file (y m : Z) (w w' : World) (count : nat) :
  plainSources cfg ->
  prebakeMonth cfg y m w = (Ok (Written count), w') ->
  (exists features,
     files w' !! outfileOf cfg y m = Some (Collection features) /\
     length features = count /\
     NoDup (featureKey <$> features)) /\
  forall p, p <> outfileOf cfg y m -> files w' !! p = files w !! p.
Proof.
  intros Hplain. unfold prebakeMonth, bind.
  destruct (existingSkips_pure (outfileOf cfg y m) w) as (skip & -> & _).
  destruct skip; [done|].
  destruct (assembleMonth_assembling y m (monthKeyOf y m) (outfileOf cfg y m) w Hplain)
    as (uniq & w1 & (_ & [Hnd Hkeys] & Hfiles & _) & ->).
  intros [= <- <-]. simpl in *. split.
  - exists (JSMap.values uniq). rewrite lookup_insert_eq. split; [done|]. split.
    + unfold JSMap.values, JSMap.size. by rewrite length_fmap.
    + by rewrite <-Hkeys.
  - intros p Hp. by rewrite lookup_insert_ne, Hfiles.
Qed.

(** X16.  A month written with at least one feature is skipped by the next
    run, which makes no request. *)
Theorem prebakeMonth_resumes (y m : Z) (w w' : World) (count : nat) :
  plainSources cfg ->
  prebakeMonth cfg y m w = (Ok (Written count), w') ->
  (0 < count)%nat ->
  prebakeMonth cfg y m w' = (Ok Skipped, w').
Proof.
  intros Hplain. unfold prebakeMonth at 1, bind.
  destruct (existingSkips_pure (outfileOf cfg y m) w) as (skip & -> & _).
  destruct skip; [done|].
  destruct (assembleMonth_assembling y m (monthKeyOf y m) (outfileOf cfg y m) w Hplain)
    as (uniq & w1 & _ & ->).
  intros [= <- <-] Hpos.
  unfold prebakeMonth, bind.
  rewrite (existingSkips_present _ _ _ (Collection (JSMap.values uniq)))
    by (simpl; apply lookup_insert_eq).
  simpl. unfold JSMap.values. rewrite length_fmap. fold (JSMap.size uniq).
  rewrite (proj2 (Nat.ltb_lt _ _) Hpos). by destruct (retryEmpty cfg).
Qed.

(** X17.  A month written with no feature is fetched again by the next run
    when [retryEmpty] is on, and skipped when it is off. *)
Theorem prebakeMonth_empty_again (y m : Z) (w w' : World) :
  plainSources cfg ->
  prebakeMonth cfg y m w = (Ok (Written 0), w') ->
  if retryEmpty cfg
  then prebakeMonth cfg y m w' =
       assembleMonth cfg y m (monthKeyOf y m) (outfileOf cfg y m) w'
  else prebakeMonth cfg y m w' = (Ok Skipped, w').
Proof.
  intros Hplain. unfold prebakeMonth at 1, bind.
  destruct (existingSkips_pure (outfileOf cfg y m) w) as (skip & -> & _).
  destruct skip; [done|].
  destruct (assembleMonth_assembling y m (monthKeyOf y m) (outfileOf cfg y m) w Hplain)
    as (uniq & w1 & _ & ->).
  intros [= Hsize <-].
  unfold prebakeMonth, bind.
  rewrite (existingSkips_present _ _ _ (Collection (JSMap.values uniq)))
    by (simpl; apply lookup_insert_eq).
  simpl. unfold JSMap.values. rewrite length_fmap. fold (JSMap.size uniq).
  rewrite Hsize. by destruct (retryEmpty cfg).
Qed.

(** X18.  Every request of [prebakeMonth] is for a configured source, with
    the configured box, for one of the windows of the month; the endpoint is
    asked nothing else. *)
Theorem prebakeMonth_requests (y m : Z) (w w' : World) (r : Result Decision) :
  plainSources cfg ->
  prebakeMonth cfg y m w = (r, w') ->
  exists new, requests w' = new ++ requests w /\ Forall (monthRequest cfg y m) new.
Proof.
  intros Hplain. unfold prebakeMonth, bind.
  destruct (existingSkips_pure (outfileOf cfg y m) w) as (skip & -> & _).
  destruct skip.
  - intros [= _ <-]. by exists [].
  - destruct (assembleMonth_assembling y m (monthKeyOf y m) (outfileOf cfg y m) w Hplain)
      as (uniq & w1 & (_ & _ & _ & _ & new & Hreq & Hnew) & ->).
    intros [= _ <-]. by exists new.
Qed.

Lemma forOf_noop {A S} (body : S -> A -> Async S) (xs : list A) (s : S) (w : World) :
  (forall x, x ∈ xs -> body s x w = (Ok s, w)) -> forOf xs body s w = (Ok s, w).
Proof.
  induction xs as [|x xs IH]; intros Hbody; simpl; [done|].
  unfold bind. rewrite Hbody by (by left). apply IH. intros x' Hx'. apply Hbody. by right.
Qed.

Lemma assembleMonth_noop (y m : Z) (monthKey outfile : string) (w : World) :
  (forall src, src ∈ SOURCES cfg ->
     fetchSource cfg monthKey (planWindows y m DAY_MAX) (JSMap.empty, false) src w =
     (Ok (JSMap.empty, false), w)) ->
  assembleMonth cfg y m monthKey outfile w =
  (Ok (Written 0),
   {| upstream := upstream w; requests := requests w; sleeps := sleeps w;
      files := <[outfile := Collection []]> (files w) |}).
Proof.
  intros Hnoop. unfold assembleMonth, bind. by rewrite forOf_noop.
Qed.

(** X19.  A month that is before the first month of every configured source
    is written with no feature, without any request. *)
Theorem prebakeMonth_no_source (y m : Z) (w : World) :
  files w !! outfileOf cfg y m = None ->
  (forall src, src ∈ SOURCES cfg ->
     exists start, startOf src = Some start /\
       ymLt (monthKeyOf y m) (String.substring 0 7 start) = true) ->
  prebakeMonth cfg y m w =
  (Ok (Written 0),
   {| upstream := upstream w; requests := requests w; sleeps := sleeps w;
      files := <[outfileOf cfg y m := Collection []]> (files w) |}).
Proof.
  intros Hnone Hskip. unfold prebakeMonth, bind.
  rewrite existingSkips_absent by done.
  apply assembleMonth_noop. intros src Hsrc. unfold fetchSource.
  destruct (Hskip src Hsrc) as (start & -> & ->). done.
Qed.

(** X20.  With a negative [MAX_RETRIES] no request is ever made: a month
    without a file is written with no feature. *)
Theorem prebakeMonth_no_attempt (y m : Z) (w : World) :
  plainSources cfg ->
  MAX_RETRIES cfg < 0 ->
  files w !! outfileOf cfg y m = None ->
  prebakeMonth cfg y m w =
  (Ok (Written 0),
   {| upstream := upstream w; requests := requests w; sleeps := sleeps w;
      files := <[outfileOf cfg y m := Collection []]> (files w) |}).
Proof.
  intros Hplain Hmax Hnone. unfold prebakeMonth, bind.
  rewrite existingSkips_absent by done.
  apply assembleMonth_noop. intros src Hsrc. unfold fetchSource.
  destruct (startOf_plain src) as [start ->];
    [by apply (proj1 (Forall_forall _ _) Hplain)|].
  destruct (ymLt _ _); [done|]. apply forOf_noop. intros win _.
  unfold fetchWindow, try_catch, bind, fetchSliceRetry.
  by rewrite attemptsFrom_nil by lia.
Qed.


Lemma forOf_requests_bound {A S} (c : nat) (body : S -> A -> Async S) (xs : list A) :
  (forall s x w r w', body s x w = (r, w') ->
     (length (requests w') <= length (requests w) + c)%nat) ->
  forall s w r w', forOf xs body s w = (r, w') ->
    (length (requests w') <= length (requests w) + c * length xs)%nat.
Proof.
  intros Hbody. induction xs as [|x xs IH]; intros s w r w'; simpl.
  - intros [= _ <-]. lia.
  - unfold bind. destruct (body s x w) as [[s1|e] w1] eqn:Hstep.
    + intros Hrest. apply IH in Hrest. apply Hbody in Hstep. lia.
    + intros [= _ <-]. apply Hbody in Hstep. lia.
Qed.

Lemma planWindows_length (y m : Z) : (length (planWindows y m DAY_MAX) <= 4)%nat.
Proof.
  unfold planWindows. destruct (daysInMonth y m) as [dim|] eqn:Hdim; [|simpl; lia].
  apply daysInMonth_bounds in Hdim.
  rewrite <-(length_fmap dayRange), windowsFrom_spans, length_fmap.
  assert (dim = 28 \/ dim = 29 \/ dim = 30 \/ dim = 31) as [->|[->|[->| ->]]] by lia;
    simpl; lia.
Qed.

Lemma fetchWindow_requests_bound (src : string) (st : JSMap.t Feature * bool) (win : Window)
    (w w' : World) (r : Result (JSMap.t Feature * bool)) :
  fetchWindow cfg src st win w = (r, w') ->
  files w' = files w /\
  (length (requests w') <= length (requests w) + Z.to_nat (MAX_RETRIES cfg + 1))%nat.
Proof.
  destruct st as [uniq saw]. unfold fetchWindow, try_catch, bind.
  destruct (fetchSliceRetry cfg _ w) as [r1 w1] eqn:Hfetch.
  apply retryLoop_footprint in Hfetch as (_ & Hfiles & k & Hk & _ & Hreq & _).
  rewrite attemptsFrom_length in Hk.
  assert (length (requests w1) <= length (requests w) + Z.to_nat (MAX_RETRIES cfg + 1))%nat.
  { rewrite Hreq, length_app, length_replicate. lia. }
  destruct r1 as [feats|err]; [by intros [= _ <-]|].
  destruct (isLimit _); by intros [= _ <-].
Qed.

Lemma forOf_files {A S} (body : S -> A -> Async S) (xs : list A) :
  (forall s x w r w', body s x w = (r, w') -> files w' = files w) ->
  forall s w r w', forOf xs body s w = (r, w') -> files w' = files w.
Proof.
  intros Hbody. induction xs as [|x xs IH]; intros s w r w'; simpl.
  - by intros [= _ <-].
  - unfold bind. destruct (body s x w) as [[s1|e] w1] eqn:Hstep.
    + intros Hrest. apply IH in Hrest. apply Hbody in Hstep. congruence.
    + intros [= _ <-]. by apply Hbody in Hstep.
Qed.

Lemma fetchSource_requests_bound (y m : Z) (monthKey src : string)
    (st : JSMap.t Feature * bool) (w w' : World) (r : Result (JSMap.t Feature * bool)) :
  fetchSource cfg monthKey (planWindows y m DAY_MAX) st src w = (r, w') ->
  files w' = files w /\
  (length (requests w') <= length (requests w) + 4 * Z.to_nat (MAX_RETRIES cfg + 1))%nat.
Proof.
  unfold fetchSource. destruct (startOf src) as [start|]; [|intros [= _ <-]; split; [done|lia]].
  destruct (ymLt _ _); [intros [= _ <-]; split; [done|lia]|].
  intros Hwin. split.
  - revert Hwin. apply forOf_files. intros s win w1 r1 w1' Hstep.
    by apply fetchWindow_requests_bound in Hstep as [? _].
  - apply (forOf_requests_bound (Z.to_nat (MAX_RETRIES cfg + 1))) in Hwin.
    + pose proof (planWindows_length y m). nia.
    + intros s win w1 r1 w1' Hstep. by apply fetchWindow_requests_bound in Hstep as [_ ?].
Qed.

(** X22.  [prebakeMonth] makes at most [MAX_RETRIES + 1] requests for each
    window of each source, so at most [4 * (MAX_RETRIES + 1)] for each
    source. *)
Theorem prebakeMonth_request_bound (y m : Z) (w w' : World) (r : Result Decision) :
  prebakeMonth cfg y m w = (r, w') ->
  (length (requests w') <=
   length (requests w) + 4 * Z.to_nat (MAX_RETRIES cfg + 1) * length (SOURCES cfg))%nat.
Proof.
  unfold prebakeMonth, bind.
  destruct (existingSkips_pure (outfileOf cfg y m) w) as (skip & -> & _).
  destruct skip; [intros [= _ <-]; lia|].
  unfold assembleMonth, bind.
  destruct (forOf _ _ _ w) as [r1 w1] eqn:Hloop.
  apply (forOf_requests_bound (4 * Z.to_nat (MAX_RETRIES cfg + 1))) in Hloop.
  2:{ intros s src w0 r0 w0' Hstep. by apply fetchSource_requests_bound in Hstep as [_ ?]. }
  destruct r1 as [st|e]; [|by intros [= _ <-]].
  unfold finishMonth. destruct (_ && _); intros [= _ <-]; simpl; lia.
Qed.

Lemma forOf_thrown {A S} (body : S -> A -> Async S) (xs : list A) (x0 : A) :
  x0 ∈ xs ->
  (forall s w, exists e, body s x0 w = (Thrown e, w)) ->
  forall s w, exists e w', forOf xs body s w = (Thrown e, w').
Proof.
  intros Hin Hthrow. induction xs as [|x xs IH]; intros s w; [by apply elem_of_nil in Hin|].
  simpl. unfold bind.
  apply elem_of_cons in Hin as [<-|Hin].
  - destruct (Hthrow s w) as [e ->]. eauto.
  - destruct (body s x w) as [[s1|e] w1]; [by apply IH|eauto].
Qed.

(** X23.  A configured source that is a name inherited from
    [Object.prototype] makes [prebakeMonth] throw for every month it
    assembles: [start.slice] is called on a value that is no string, outside
    the [try].  No file is written. *)
Theorem prebakeMonth_inherited_source (y m : Z) (w : World) (src : string) :
  src ∈ SOURCES cfg -> src ∈ inheritedNames ->
  files w !! outfileOf cfg y m = None ->
  exists e w', prebakeMonth cfg y m w = (Thrown e, w') /\ files w' = files w.
Proof.
  intros Hsrc Hinherited Hnone. unfold prebakeMonth, bind.
  rewrite existingSkips_absent by done.
  unfold assembleMonth, bind.
  destruct (forOf_thrown (fetchSource cfg (monthKeyOf y m) (planWindows y m DAY_MAX))
              (SOURCES cfg) src Hsrc) with (s := (@JSMap.empty Feature, false)) (w := w)
    as (e & w' & Hloop).
  { intros s w1. unfold fetchSource, startOf.
    assert (SOURCE_START !! src = None) as ->.
    { revert Hinherited. unfold inheritedNames. rewrite !elem_of_cons, elem_of_nil.
      intros [->|[->|[->|[->|[->|[->|[->|[->|[->|[->|[->|[->|[]]]]]]]]]]]]]; reflexivity. }
    rewrite bool_decide_true by done. by eexists. }
  rewrite Hloop. exists e, w'. split; [done|].
  revert Hloop. apply forOf_files. intros s src' w1 r1 w1' Hstep.
  by apply fetchSource_requests_bound in Hstep as [? _].
Qed.

Lemma prebakeMonth_outcome (y m : Z) (w : World) :
  plainSources cfg ->
  exists d w', prebakeMonth cfg y m w = (Ok d, w') /\
    is_Some (files w' !! outfileOf cfg y m) /\
    (forall p, is_Some (files w !! p) -> is_Some (files w' !! p)) /\
    upstream w' = upstream w.
Proof.
  intros Hplain. unfold prebakeMonth, bind.
  destruct (existingSkips_pure (outfileOf cfg y m) w) as (skip & -> & Hskip).
  destruct skip.
  - exists Skipped, w. auto.
  - destruct (assembleMonth_assembling y m (monthKeyOf y m) (outfileOf cfg y m) w Hplain)
      as (uniq & w1 & (_ & _ & Hfiles & Hup & _) & ->).
    eexists _, _. split; [done|]. simpl. split; [|split; [|done]].
    + rewrite lookup_insert_eq. eauto.
    + intros p Hp. destruct (decide (p = outfileOf cfg y m)) as [->|Hne].
      * rewrite lookup_insert_eq. eauto.
      * by rewrite lookup_insert_ne, Hfiles.
Qed.

Lemma prebakeAll_loop (months : list (Z * Z)) (before : list Decision) (w : World) :
  plainSources cfg ->
  exists ds w',
    forOf months (fun done mm => await d <~ prebakeMonth cfg mm.1 mm.2; ret (done ++ [d]))
      before w = (Ok (before ++ ds), w') /\
    length ds = length months /\
    (forall mm, mm ∈ months -> is_Some (files w' !! outfileOf cfg mm.1 mm.2)) /\
    (forall p, is_Some (files w !! p) -> is_Some (files w' !! p)).
Proof.
  intros Hplain. revert before w. induction months as [|mm months IH]; intros before w.
  - exists [], w. simpl. rewrite app_nil_r. repeat split; try done.
    by intros mm ?%elem_of_nil.
  - cbn [forOf]. unfold bind at 1. unfold bind at 1.
    destruct (prebakeMonth_outcome mm.1 mm.2 w Hplain) as (d & w1 & -> & Hfile & Hkeep & _).
    cbn [ret].
    destruct (IH (before ++ [d]) w1) as (ds & w' & -> & Hlen & Hall & Hkeep').
    exists (d :: ds), w'. rewrite <-app_assoc. simpl. repeat split; [by rewrite Hlen| |].
    + intros mm' [->|Hin]%elem_of_cons; [by apply Hkeep'|by apply Hall].
    + intros p Hp. by apply Hkeep', Hkeep.
Qed.

End AssemblerMore.


Section DriverFacts.
Import Driver.

(** The bound on the turns is never reached: one more turn changes nothing. *)
Lemma monthsFrom_enough (turns : nat) (ye me y m : Z) :
  monthsLeft ye y m + 1 <= Z.of_nat turns ->
  monthsFrom (S turns) ye me y m = monthsFrom turns ye me y m.
Proof.
  revert y m. induction turns as [|turns IH]; intros y m Hturns.
  - cbn [monthsFrom]. destruct ((y <? ye) || ((y =? ye) && (m <=? me))) eqn:Hcond; [|done].
    unfold monthsLeft in Hturns. exfalso.
    apply orb_true_iff in Hcond as [?%Z.ltb_lt | [?%Z.eqb_eq ?%Z.leb_le]%andb_true_iff]; lia.
  - change (monthsFrom (S (S turns)) ye me y m) with
      (if (y <? ye) || ((y =? ye) && (m <=? me)) then
         {| y := y; m := m; key := pretty y +:+ "-" +:+ Prebake.pad2 m |}
         :: (if 12 <? m + 1 then monthsFrom (S turns) ye me (y + 1) 1
             else monthsFrom (S turns) ye me y (m + 1))
       else []).
    cbn [monthsFrom].
    destruct ((y <? ye) || ((y =? ye) && (m <=? me))) eqn:Hcond; [|done].
    assert (y <= ye) as Hy.
    { apply orb_true_iff in Hcond as [?%Z.ltb_lt | [?%Z.eqb_eq ?%Z.leb_le]%andb_true_iff]; lia. }
    f_equal. unfold monthsLeft in *.
    destruct (Z.ltb_spec 12 (m + 1)); apply IH; unfold monthsLeft; lia.
Qed.

Lemma monthsFrom_index (turns : nat) (ye me y m : Z) :
  1 <= m <= 12 -> 1 <= me <= 12 ->
  monthIndex ye me - monthIndex y m + 1 <= Z.of_nat turns ->
  (fun r => monthIndex (Driver.y r) (Driver.m r)) <$> monthsFrom turns ye me y m =
    seqZ (monthIndex y m) (monthIndex ye me - monthIndex y m + 1) /\
  Forall (fun r => 1 <= Driver.m r <= 12 /\
                   key r = Prebake.monthKeyOf (Driver.y r) (Driver.m r))
         (monthsFrom turns ye me y m).
Proof.
  intros Hm Hme. revert y m Hm. induction turns as [|turns IH]; intros y m Hm Hturns.
  - simpl. split; [|done]. symmetry. apply seqZ_nil. lia.
  - cbn [monthsFrom]. unfold monthIndex in *.
    destruct ((y <? ye) || ((y =? ye) && (m <=? me))) eqn:Hcond.
    + assert (12 * y + (m - 1) <= 12 * ye + (me - 1)) as Hle.
      { apply orb_true_iff in Hcond as [?%Z.ltb_lt | [?%Z.eqb_eq ?%Z.leb_le]%andb_true_iff]; lia. }
      rewrite seqZ_cons by lia. rewrite fmap_cons. cbn [Driver.y Driver.m].
      destruct (Z.ltb_spec 12 (m + 1)).
      * destruct (IH (y + 1) 1) as [Hseq Hall]; [lia|lia|].
        split.
        -- f_equal. rewrite Hseq. f_equal; lia.
        -- constructor; [done|]. exact Hall.
      * destruct (IH y (m + 1)) as [Hseq Hall]; [lia|lia|].
        split.
        -- f_equal. rewrite Hseq. f_equal; lia.
        -- constructor; [done|]. exact Hall.
    + split; [|done]. symmetry. apply seqZ_nil.
      apply orb_false_iff in Hcond as [?%Z.ltb_ge [?%Z.eqb_neq | ?%Z.leb_gt]%andb_false_iff]; lia.
Qed.

(** X25.  Between two months given by a year and a month from 1 to 12, the list
    holds every month from the first to the last, once and in order, each
    with a month from 1 to 12 and its own key; it is empty when the end is
    before the start. *)
Theorem monthRange_enumerates (ys ms ye me : Z) :
  1 <= ms <= 12 -> 1 <= me <= 12 ->
  (fun r => monthIndex (Driver.y r) (Driver.m r)) <$> monthRange ys ms ye me =
    seqZ (monthIndex ys ms) (monthIndex ye me - monthIndex ys ms + 1) /\
  Forall (fun r => 1 <= Driver.m r <= 12 /\
                   key r = Prebake.monthKeyOf (Driver.y r) (Driver.m r))
         (monthRange ys ms ye me).
Proof.
  intros Hms Hme. apply monthsFrom_index; [done..|].
  unfold monthsLeft, monthIndex. lia.
Qed.
End DriverFacts.

(** ** More on months and windows *)

Section PlannerMore.
Import Prebake.

(** *** Month keys as strings *)

Lemma pretty_four_digits (n : N) :
  (1000 <= n <= 9999)%N ->
  pretty n = String (pretty_N_char ((n `div` 1000) `mod` 10))
            (String (pretty_N_char ((n `div` 100) `mod` 10))
            (String (pretty_N_char ((n `div` 10) `mod` 10))
            (String (pretty_N_char (n `mod` 10)) ""))).
Proof.
  intros Hn. unfold pretty, pretty_N. rewrite decide_False by lia.
  rewrite pretty_N_go_step by lia.
  rewrite pretty_N_go_step by (apply N.div_str_pos; lia).
  rewrite N.Div0.div_div.
  rewrite pretty_N_go_step by (apply N.div_str_pos; lia).
  rewrite N.Div0.div_div.
  rewrite pretty_N_go_step by (apply N.div_str_pos; lia).
  rewrite N.Div0.div_div.
  assert (n `div` (10 * 10 * 10 * 10) = 0)%N as -> by (apply N.div_small; lia).
  by rewrite pretty_N_go_0.
Qed.

Lemma digit_compare (a b : N) :
  (a < 10)%N -> (b < 10)%N ->
  Ascii.compare (pretty_N_char a) (pretty_N_char b) = (a ?= b)%N.
Proof.
  intros Ha Hb.
  assert (a = 0 \/ a = 1 \/ a = 2 \/ a = 3 \/ a = 4 \/ a = 5 \/ a = 6 \/ a = 7 \/
          a = 8 \/ a = 9)%N as Hacases by lia.
  assert (b = 0 \/ b = 1 \/ b = 2 \/ b = 3 \/ b = 4 \/ b = 5 \/ b = 6 \/ b = 7 \/
          b = 8 \/ b = 9)%N as Hbcases by lia.
  destruct Hacases as [->|[->|[->|[->|[->|[->|[->|[->|[->| ->]]]]]]]]];
    destruct Hbcases as [->|[->|[->|[->|[->|[->|[->|[->|[->| ->]]]]]]]]]; reflexivity.
Qed.

Lemma four_digits (n : N) :
  (1000 <= n <= 9999)%N ->
  (n = 1000 * ((n `div` 1000) `mod` 10) + 100 * ((n `div` 100) `mod` 10) +
       10 * ((n `div` 10) `mod` 10) + n `mod` 10)%N.
Proof. intros. zify. Z.to_euclidean_division_equations. lia. Qed.

Lemma year_compare (n n' : N) (s s' : string) :
  (1000 <= n <= 9999)%N -> (1000 <= n' <= 9999)%N ->
  String.compare (pretty n +:+ s) (pretty n' +:+ s') =
  match (n ?= n')%N with Eq => String.compare s s' | c => c end.
Proof.
  intros Hn Hn'. rewrite !pretty_four_digits by done. simpl.
  rewrite !digit_compare by (apply N.mod_lt; lia).
  pose proof (four_digits n Hn) as Hd. pose proof (four_digits n' Hn') as Hd'.
  assert ((n `div` 1000) `mod` 10 < 10 /\ (n `div` 100) `mod` 10 < 10 /\
          (n `div` 10) `mod` 10 < 10 /\ n `mod` 10 < 10)%N as (B3 & B2 & B1 & B0)
    by (repeat split; apply N.mod_lt; lia).
  assert ((n' `div` 1000) `mod` 10 < 10 /\ (n' `div` 100) `mod` 10 < 10 /\
          (n' `div` 10) `mod` 10 < 10 /\ n' `mod` 10 < 10)%N as (B3' & B2' & B1' & B0')
    by (repeat split; apply N.mod_lt; lia).
  revert Hd Hd' B3 B2 B1 B0 B3' B2' B1' B0'.
  generalize ((n `div` 1000) `mod` 10)%N ((n `div` 100) `mod` 10)%N
             ((n `div` 10) `mod` 10)%N (n `mod` 10)%N
             ((n' `div` 1000) `mod` 10)%N ((n' `div` 100) `mod` 10)%N
             ((n' `div` 10) `mod` 10)%N (n' `mod` 10)%N.
  intros a3 a2 a1 a0 b3 b2 b1 b0 Hd Hd' B3 B2 B1 B0 B3' B2' B1' B0'.
  destruct (N.compare_spec a3 b3); destruct (N.compare_spec a2 b2);
    destruct (N.compare_spec a1 b1); destruct (N.compare_spec a0 b0);
    destruct (N.compare_spec n n'); try reflexivity; exfalso; lia.
Qed.

Lemma month_compare (m m' : Z) :
  1 <= m <= 12 -> 1 <= m' <= 12 ->
  String.compare ("-" +:+ pad2 m) ("-" +:+ pad2 m') = (m ?= m').
Proof.
  intros Hm Hm'.
  assert (m = 1 \/ m = 2 \/ m = 3 \/ m = 4 \/ m = 5 \/ m = 6 \/ m = 7 \/ m = 8 \/
          m = 9 \/ m = 10 \/ m = 11 \/ m = 12) as Hc by lia.
  assert (m' = 1 \/ m' = 2 \/ m' = 3 \/ m' = 4 \/ m' = 5 \/ m' = 6 \/ m' = 7 \/ m' = 8 \/
          m' = 9 \/ m' = 10 \/ m' = 11 \/ m' = 12) as Hc' by lia.
  destruct Hc as [->|[->|[->|[->|[->|[->|[->|[->|[->|[->|[->| ->]]]]]]]]]]];
    destruct Hc' as [->|[->|[->|[->|[->|[->|[->|[->|[->|[->|[->| ->]]]]]]]]]]];
    reflexivity.
Qed.

Lemma monthKey_compare (y m y' m' : Z) :
  1000 <= y <= 9999 -> 1000 <= y' <= 9999 -> 1 <= m <= 12 -> 1 <= m' <= 12 ->
  String.compare (monthKeyOf y m) (monthKeyOf y' m') =
  match y ?= y' with Eq => m ?= m' | c => c end.
Proof.
  intros Hy Hy' Hm Hm'. unfold monthKeyOf.
  assert (forall z, 1000 <= z <= 9999 -> pretty z = pretty (Z.to_N z)) as Hpretty.
  { intros z Hz. destruct z as [|p|p]; [lia|done|lia]. }
  rewrite !Hpretty, year_compare by lia.
  rewrite month_compare by done.
  rewrite <-(Z2N.inj_compare y y') by lia. done.
Qed.

(** X26.  For years of four digits and months from 1 to 12, comparing two month
    keys as strings is comparing the months in time. *)
Theorem ymLt_chronological (y m y' m' : Z) :
  1000 <= y <= 9999 -> 1000 <= y' <= 9999 -> 1 <= m <= 12 -> 1 <= m' <= 12 ->
  ymLt (monthKeyOf y m) (monthKeyOf y' m') = true <-> y < y' \/ (y = y' /\ m < m').
Proof.
  intros Hy Hy' Hm Hm'. unfold ymLt, String.ltb.
  rewrite monthKey_compare by done.
  destruct (Z.compare_spec y y') as [H|H|H].
  - destruct (Z.compare_spec m m'); split; try done; try lia.
  - split; [lia|done].
  - split; [done|lia].
Qed.
End PlannerMore.

Section SourceStart.
Import Prebake.
Context {B : Builtins}.
Variable cfg : Config.

(** X27.  A source is left out of exactly the months before the month of its
    first day: the month in which it starts is fetched whole. *)
Theorem fetchSource_from_start_month (src start : string) (ys ms y m : Z)
    (windows : list Window) (st : JSMap.t Feature * bool) (w : World) :
  startOf src = Some start ->
  String.substring 0 7 start = monthKeyOf ys ms ->
  1000 <= ys <= 9999 -> 1 <= ms <= 12 -> 1000 <= y <= 9999 -> 1 <= m <= 12 ->
  fetchSource cfg (monthKeyOf y m) windows st src w =
  if (y <? ys) || ((y =? ys) && (m <? ms)) then (Ok st, w)
  else forOf windows (fetchWindow cfg src) st w.
Proof.
  intros Hsrc Hstart Hys Hms Hy Hm. unfold fetchSource. rewrite Hsrc, Hstart.
  unfold ymLt, String.ltb. rewrite monthKey_compare by done.
  destruct (Z.compare_spec y ys) as [->|Hlt|Hgt].
  - rewrite Z.ltb_irrefl, Z.eqb_refl. simpl.
    destruct (Z.compare_spec m ms) as [->|Hlt|Hgt].
    + by rewrite Z.ltb_irrefl.
    + by rewrite (proj2 (Z.ltb_lt _ _) Hlt).
    + by rewrite (proj2 (Z.ltb_ge _ _)) by lia.
  - by rewrite (proj2 (Z.ltb_lt _ _) Hlt).
  - rewrite (proj2 (Z.ltb_ge _ _)) by lia. rewrite (proj2 (Z.eqb_neq _ _)) by lia. done.
Qed.
End SourceStart.




Section ToFixedFacts.
Import ErrorText.
Context {B : Builtins}.

Lemma append_cons (c : ascii) (a b : string) : String c a +:+ b = String c (a +:+ b).
Proof. done. Qed.

Lemma concat_zeros (z : nat) :
  String.concat "" (replicate (S z) "0") = String "0" (String.concat "" (replicate z "0")).
Proof. by destruct z. Qed.

Lemma decimalValue_padStart0 (k : nat) (s : string) :
  decimalValue (padStart0 k s) = decimalValue s.
Proof.
  unfold padStart0. induction (k - String.length s)%nat as [|z IH]; [done|].
  rewrite concat_zeros, append_cons. cbn [decimalValue]. rewrite IH. simpl. lia.
Qed.

Lemma allDigits_padStart0 (k : nat) (s : string) :
  allDigits s = true -> allDigits (padStart0 k s) = true.
Proof.
  intros Hs. unfold padStart0. induction (k - String.length s)%nat as [|z IH]; [done|].
  rewrite concat_zeros, append_cons. cbn [allDigits]. by rewrite IH.
Qed.

Lemma length_append (a b : string) :
  String.length (a +:+ b) = (String.length a + String.length b)%nat.
Proof. induction a as [|c a IH]; simpl; [done|]. by rewrite IH. Qed.

Lemma length_padStart0 (k : nat) (s : string) :
  (k <= String.length (padStart0 k s))%nat.
Proof.
  unfold padStart0. rewrite length_append.
  assert (String.length (String.concat "" (replicate (k - String.length s) "0"))
          = (k - String.length s)%nat) as ->; [|lia].
  induction (k - String.length s)%nat as [|z IH]; [done|].
  rewrite concat_zeros. cbn [String.length]. by rewrite IH.
Qed.

Lemma substring_split (a b : nat) (s : string) :
  (a + b = String.length s)%nat ->
  String.substring 0 a s +:+ String.substring a b s = s /\
  String.length (String.substring a b s) = b.
Proof.
  revert a b. induction s as [|c s IH]; intros a b Hlen; simpl in Hlen.
  - assert (a = 0 /\ b = 0)%nat as [-> ->] by lia. done.
  - destruct a as [|a].
    + destruct b as [|b]; [lia|]. cbn [String.substring].
      destruct (IH 0%nat b) as [Happ Hl]; [lia|].
      assert (String.substring 0 0 s = "") as Hnil by (by destruct s).
      rewrite Hnil in Happ. change ("" +:+ String.substring 0 b s) with (String.substring 0 b s) in Happ.
      change ("" +:+ String c (String.substring 0 b s)) with (String c (String.substring 0 b s)).
      rewrite Happ. split; [done|]. simpl. lia.
    + cbn [String.substring]. destruct (IH a b) as [Happ Hl]; [lia|].
      rewrite append_cons, Happ. done.
Qed.

Lemma append_nil_l (x : string) : "" +:+ x = x.
Proof. done. Qed.

Lemma append_inj_length (a a' b b' : string) :
  String.length a = String.length a' -> a +:+ b = a' +:+ b' -> a = a' /\ b = b'.
Proof.
  revert a'. induction a as [|c a IH]; intros [|c' a'] Hlen; try done.
  rewrite !append_cons. intros [= -> Happ]. simpl in Hlen.
  destruct (IH a') as [-> ->]; [lia|done|done].
Qed.

Lemma allDigits_append (a b : string) :
  allDigits (a +:+ b) = true -> allDigits a = true /\ allDigits b = true.
Proof.
  induction a as [|c a IH]; [done|]. rewrite append_cons. simpl.
  intros [Hc Hab]%andb_true_iff. destruct (IH Hab) as [Ha Hb]. by rewrite Hc, Ha.
Qed.


Lemma fixedText_inj (s s' m m' : string) :
  (s = "" \/ s = "-") -> (s' = "" \/ s' = "-") ->
  allDigits m = true -> allDigits m' = true ->
  (5 <= String.length m)%nat -> (5 <= String.length m')%nat ->
  fixedText s m = fixedText s' m' -> s = s' /\ m = m'.
Proof.
  intros Hs Hs' Hm Hm' Hk Hk'. unfold fixedText.
  destruct (substring_split (String.length m - 4) 4 m) as [Hsplit Hl]; [lia|].
  destruct (substring_split (String.length m' - 4) 4 m') as [Hsplit' Hl']; [lia|].
  set (a := String.substring 0 (String.length m - 4) m) in *.
  set (b := String.substring (String.length m - 4) 4 m) in *.
  set (a' := String.substring 0 (String.length m' - 4) m') in *.
  set (b' := String.substring (String.length m' - 4) 4 m') in *.
  assert (exists c r, a = String c r /\ isDigit c = true) as (c & r & Ha & Hc).
  { rewrite <-Hsplit in Hm, Hk. apply allDigits_append in Hm as [Hm _].
    rewrite length_append, Hl in Hk.
    destruct a as [|c r]; [simpl in Hk; lia|]. simpl in Hm.
    apply andb_true_iff in Hm as [? _]. eauto. }
  assert (exists c r, a' = String c r /\ isDigit c = true) as (c' & r' & Ha' & Hc').
  { rewrite <-Hsplit' in Hm', Hk'. apply allDigits_append in Hm' as [Hm' _].
    rewrite length_append, Hl' in Hk'.
    destruct a' as [|c' r']; [simpl in Hk'; lia|]. simpl in Hm'.
    apply andb_true_iff in Hm' as [? _]. eauto. }
  assert (forall x y x' y' : string,
            String.length y = 4%nat -> String.length y' = 4%nat ->
            x +:+ "." +:+ y = x' +:+ "." +:+ y' -> x = x' /\ y = y') as Hsame.
  { intros x y x' y' Hy Hy' Heq.
    assert (String.length x = String.length x') as Hlen.
    { apply (f_equal String.length) in Heq. rewrite !length_append in Heq.
      simpl in Heq. lia. }
    destruct (append_inj_length _ _ _ _ Hlen Heq) as [-> Hyy].
    rewrite !append_cons, !append_nil_l in Hyy. by injection Hyy as ->. }
  intros Heq.
  destruct Hs as [->| ->], Hs' as [->| ->].
  - rewrite !append_nil_l in Heq.
    destruct (Hsame a b a' b' Hl Hl' Heq) as [Haa Hbb].
    split; [done|]. by rewrite <-Hsplit, <-Hsplit', Haa, Hbb.
  - exfalso. rewrite Ha in Heq. rewrite !append_cons in Heq.
    injection Heq as -> _. done.
  - exfalso. rewrite Ha' in Heq. rewrite !append_cons in Heq.
    injection Heq as <- _. done.
  - rewrite !append_cons, !append_nil_l in Heq. injection Heq as Heq.
    destruct (Hsame a b a' b' Hl Hl' Heq) as [Haa Hbb].
    split; [done|]. by rewrite <-Hsplit, <-Hsplit', Haa, Hbb.
Qed.
Lemma pretty_Z_nonneg (n : Z) : 0 <= n -> pretty n = pretty (Z.to_N n).
Proof. intros Hn. destruct n as [|p|p]; [done|done|lia]. Qed.

Lemma toFixed4_fixedText (q : Q) :
  (Qabs q < inject_Z (10 ^ 21))%Q ->
  toFixed4 (Fin q) =
    fixedText (if Qle_bool 0 q then "" else "-")
      (padStart0 5 (pretty (Z.to_N (Qfloor (Qabs q * inject_Z 10000 + (1 # 2)))))) /\
  0 <= Qfloor (Qabs q * inject_Z 10000 + (1 # 2)).
Proof.
  intros Hq. assert (0 <= Qfloor (Qabs q * inject_Z 10000 + (1 # 2))) as Hn.
  { change 0 with (Qfloor (inject_Z 0)). apply Qfloor_resp_le.
    pose proof (Qabs_nonneg q) as Ha. change (inject_Z 0) with 0%Q.
    change (inject_Z 10000) with 10000%Q. lra. }
  split; [|done]. unfold toFixed4.
  destruct (Qle_bool (inject_Z (10 ^ 21)) (Qabs q)) eqn:Hbig.
  - apply Qle_bool_iff in Hbig. exfalso. by apply (Qlt_not_le _ _ Hq).
  - cbv zeta. by rewrite pretty_Z_nonneg.
Qed.

(** Two finite coordinates below 10^21 in magnitude that [toFixed(4)] writes
    alike have the same sign and the same rounded number of ten-thousandths. *)
Lemma toFixed4_same (q q' : Q) :
  (Qabs q < inject_Z (10 ^ 21))%Q -> (Qabs q' < inject_Z (10 ^ 21))%Q ->
  toFixed4 (Fin q) = toFixed4 (Fin q') ->
  Qle_bool 0 q = Qle_bool 0 q' /\
  Qfloor (Qabs q * inject_Z 10000 + (1 # 2)) = Qfloor (Qabs q' * inject_Z 10000 + (1 # 2)).
Proof.
  intros Hq Hq'.
  destruct (toFixed4_fixedText q Hq) as [-> Hn].
  destruct (toFixed4_fixedText q' Hq') as [-> Hn'].
  intros Heq. apply fixedText_inj in Heq as [Hs Hm].
  - split; [by destruct (Qle_bool 0 q), (Qle_bool 0 q')|].
    apply (f_equal decimalValue) in Hm.
    rewrite !decimalValue_padStart0, !decimalValue_pretty in Hm. lia.
  - destruct (Qle_bool 0 q); auto.
  - destruct (Qle_bool 0 q'); auto.
  - apply allDigits_padStart0, pretty_N_digits.
  - apply allDigits_padStart0, pretty_N_digits.
  - apply length_padStart0.
  - apply length_padStart0.
Qed.

(** X28.  Two finite coordinates below 10^21 in magnitude that [toFixed(4)]
    writes alike, so that [featureKey] cannot tell them apart, lie within one
    ten-thousandth of a degree of each other. *)
Theorem toFixed4_close (q q' : Q) :
  (Qabs q < inject_Z (10 ^ 21))%Q -> (Qabs q' < inject_Z (10 ^ 21))%Q ->
  toFixed4 (Fin q) = toFixed4 (Fin q') ->
  (Qabs (q - q') < 1 # 10000)%Q.
Proof.
  intros Hq Hq' Heq. destruct (toFixed4_same q q' Hq Hq' Heq) as [Hs Hn].
  pose proof (Qfloor_le (Qabs q * inject_Z 10000 + (1 # 2))) as Hlo.
  pose proof (Qlt_floor (Qabs q * inject_Z 10000 + (1 # 2))) as Hhi.
  pose proof (Qfloor_le (Qabs q' * inject_Z 10000 + (1 # 2))) as Hlo'.
  pose proof (Qlt_floor (Qabs q' * inject_Z 10000 + (1 # 2))) as Hhi'.
  rewrite <-Hn in Hlo', Hhi'. rewrite inject_Z_plus in Hhi, Hhi'.
  set (n := inject_Z (Qfloor (Qabs q * inject_Z 10000 + (1 # 2)))) in *.
  change (inject_Z 10000) with 10000%Q in *. change (inject_Z 1) with 1%Q in *.
  clearbody n.
  assert (Qabs q == q /\ Qabs q' == q' \/ Qabs q == - q /\ Qabs q' == - q')%Q as Habs.
  { destruct (Qle_bool 0 q) eqn:Hsq; symmetry in Hs.
    - left. apply Qle_bool_iff in Hsq, Hs. split; by apply Qabs_pos.
    - right. assert (q <= 0 /\ q' <= 0)%Q as [? ?].
      { split; apply Qnot_lt_le; intros Hlt%Qlt_le_weak%Qle_bool_iff; congruence. }
      split; by apply Qabs_neg. }
  apply Qabs_Qlt_condition.
  clear Hq Hq' Hn. generalize dependent (Qabs q). generalize dependent (Qabs q').
  intros a' Hlo' Hhi' a Hlo Hhi Habs.
  destruct Habs as [[Ha Ha']|[Ha Ha']]; lra.
Qed.

(** X29.  The status that [fetchSlice] writes into its error message is the one
    [httpStatusFromError] reads back: the expression captures the decimal
    digits of the status, whatever the source and the window. *)
Theorem errorMessage_round_trip (status : N) (args : Prebake.Request) :
  exists digits,
    exec (Prebake.errorMessage status args) = Some digits /\
    allDigits digits = true /\ decimalValue digits = status /\
    Prebake.httpStatusFromError (Prebake.JSError (Prebake.errorMessage status args)) =
      Some status.
Proof.
  exists (pretty status). split; [apply exec_errorMessage|].
  split; [apply pretty_N_digits|]. split; [apply decimalValue_pretty|].
  apply httpStatus_errorMessage.
Qed.

End ToFixedFacts.

(** ** Instances of the further properties *)

Section DedupMoreExamples.
#[local] Existing Instance exampleBuiltins.

Lemma fold_addUnique_distinct_witness :
  JSMap.values (foldl Prebake.addUnique JSMap.empty [terraA; bareA]) = [terraA; bareA].
Proof.
  apply (fold_addUnique_distinct [terraA; bareA]).
  apply (bool_decide_unpack _). vm_compute. reflexivity.
Defined.

Lemma fold_addUnique_permutation_witness :
  JSMap.size (foldl Prebake.addUnique JSMap.empty [terraA; bareA; terraB]) =
  JSMap.size (foldl Prebake.addUnique JSMap.empty [terraB; terraA; bareA]).
Proof.
  apply (fold_addUnique_permutation [terraA; bareA; terraB] [terraB; terraA; bareA]).
  change [terraA; bareA; terraB] with ([terraA; bareA] ++ [terraB]).
  apply Permutation_app_comm.
Defined.
End DedupMoreExamples.

Section IngestMoreExamples.
#[local] Existing Instance exampleBuiltins.

Lemma addFeature_idempotent_witness :
  let buckets := default JSMap.empty (Ingest.addFeature JSMap.empty terraA) in
  Ingest.addFeature JSMap.empty terraA = Some buckets /\
  Ingest.addFeature buckets terraA = Some buckets.
Proof.
  cbv zeta. split; [vm_compute; reflexivity|].
  apply (addFeature_idempotent JSMap.empty). vm_compute. reflexivity.
Defined.


Lemma addFeatures_by_month_witness :
  let buckets :=
    default JSMap.empty (Ingest.addFeatures JSMap.empty [terraA; bareA; terraB]) in
  NoDup (Ingest.featureKey <$> Ingest.monthFeatures buckets "2023-02") /\
  forall f, f ∈ Ingest.monthFeatures buckets "2023-02" ->
    f ∈ [terraA; bareA; terraB] /\
    Ingest.toMonthKey (properties f !! "acq_date") = Some "2023-02".
Proof.
  cbv zeta. apply (addFeatures_by_month [terraA; bareA; terraB]).
  vm_compute. reflexivity.
Defined.

Lemma addFeatures_last_wins_witness :
  let buckets :=
    default JSMap.empty (Ingest.addFeatures JSMap.empty [terraA; terraB; bareA]) in
  JSMap.get (Ingest.featureKey terraB) (bucketOf buckets "2023-02") = Some terraB /\
  terraB ∈ Ingest.monthFeatures buckets "2023-02".
Proof.
  cbv zeta. apply (addFeatures_last_wins [terraA] [bareA] terraB).
  - vm_compute. reflexivity.
  - reflexivity.
  - intros g ->%list_elem_of_singleton _. vm_compute. discriminate.
Defined.

End IngestMoreExamples.

Section AssemblerMoreExamples.
Import Prebake.
#[local] Existing Instance exampleBuiltins.

Lemma prebakeMonth_never_throws_witness :
  exists d w',
    prebakeMonth (exampleConfig true) 2023 2 (freshWorld alwaysLimited ∅) = (Ok d, w') /\
    ((d = Skipped /\ w' = freshWorld alwaysLimited ∅ /\
      is_Some (files (freshWorld alwaysLimited ∅) !! outfileOf (exampleConfig true) 2023 2)) \/
     (exists count, d = Written count /\
        is_Some (files w' !! outfileOf (exampleConfig true) 2023 2))).
Proof.
  apply (prebakeMonth_never_throws (exampleConfig true) 2023 2 (freshWorld alwaysLimited ∅)).
  apply Forall_singleton. apply (bool_decide_unpack _). vm_compute. reflexivity.
Defined.

Lemma prebakeMonth_written_file_witness :
  let r := prebakeMonth (exampleConfig true) 2023 2 (freshWorld (limitedThenRow 0) ∅) in
  r.1 = Ok (Written 1) /\
  exists features,
    files r.2 !! exampleOutfile = Some (Collection features) /\ length features = 1%nat.
Proof.
  cbv zeta. split; [vm_compute; reflexivity|].
  destruct (prebakeMonth_written_file (exampleConfig true) 2023 2
              (freshWorld (limitedThenRow 0) ∅)
              (prebakeMonth (exampleConfig true) 2023 2
                 (freshWorld (limitedThenRow 0) ∅)).2 1)
    as [(features & Hfile & Hlen & _) _].
  - apply Forall_singleton. apply (bool_decide_unpack _). vm_compute. reflexivity.
  - vm_compute. reflexivity.
  - exists features. split; [exact Hfile | exact Hlen].
Defined.

Lemma prebakeMonth_resumes_witness :
  let r := prebakeMonth (exampleConfig true) 2023 2 (freshWorld (limitedThenRow 0) ∅) in
  r.1 = Ok (Written 1) /\
  prebakeMonth (exampleConfig true) 2023 2 r.2 = (Ok Skipped, r.2).
Proof.
  cbv zeta. split; [vm_compute; reflexivity|].
  apply (prebakeMonth_resumes (exampleConfig true) 2023 2
           (freshWorld (limitedThenRow 0) ∅) _ 1).
  - apply Forall_singleton. apply (bool_decide_unpack _). vm_compute. reflexivity.
  - vm_compute. reflexivity.
  - lia.
Defined.

Lemma prebakeMonth_empty_again_witness :
  let r := prebakeMonth (exampleConfig true) 2023 2 (freshWorld alwaysLimited ∅) in
  r.1 = Ok (Written 0) /\
  prebakeMonth (exampleConfig true) 2023 2 r.2 =
  assembleMonth (exampleConfig true) 2023 2 "2023-02" exampleOutfile r.2.
Proof.
  cbv zeta. split; [vm_compute; reflexivity|].
  apply (prebakeMonth_empty_again (exampleConfig true) 2023 2 (freshWorld alwaysLimited ∅)).
  - apply Forall_singleton. apply (bool_decide_unpack _). vm_compute. reflexivity.
  - vm_compute. reflexivity.
Defined.

Lemma prebakeMonth_requests_witness :
  let r := prebakeMonth (exampleConfig true) 2023 2 (freshWorld (limitedThenRow 2) ∅) in
  exists new,
    requests r.2 = new ++ [] /\ Forall (monthRequest (exampleConfig true) 2023 2) new.
Proof.
  cbv zeta.
  apply (prebakeMonth_requests (exampleConfig true) 2023 2 (freshWorld (limitedThenRow 2) ∅) _
           (prebakeMonth (exampleConfig true) 2023 2 (freshWorld (limitedThenRow 2) ∅)).1).
  - apply Forall_singleton. apply (bool_decide_unpack _). vm_compute. reflexivity.
  - vm_compute. reflexivity.
Defined.

Lemma prebakeMonth_no_source_witness :
  prebakeMonth (exampleConfig true) 1999 5 (freshWorld (limitedThenRow 0) ∅) =
  (Ok (Written 0),
   freshWorld (limitedThenRow 0) {[ "./data/firms/CA-1999-05.geojson" := Collection [] ]}).
Proof.
  apply (prebakeMonth_no_source (exampleConfig true) 1999 5 (freshWorld (limitedThenRow 0) ∅)).
  - reflexivity.
  - intros src ->%list_elem_of_singleton. exists "2000-11-01". split; reflexivity.
Defined.

Lemma prebakeMonth_no_attempt_witness :
  let cfg := {| THROTTLE_MS := 800; MAX_RETRIES := -1; SOURCES := ["MODIS_SP"];
                OUTDIR := "./data/firms"; BBOX := "-125,32,-113.5,43";
                retryEmpty := true |} in
  prebakeMonth cfg 2023 2 (freshWorld (limitedThenRow 0) ∅) =
  (Ok (Written 0), freshWorld (limitedThenRow 0) {[ exampleOutfile := Collection [] ]}).
Proof.
  cbv zeta.
  apply (prebakeMonth_no_attempt
           {| THROTTLE_MS := 800; MAX_RETRIES := -1; SOURCES := ["MODIS_SP"];
              OUTDIR := "./data/firms"; BBOX := "-125,32,-113.5,43"; retryEmpty := true |}
           2023 2 (freshWorld (limitedThenRow 0) ∅)).
  - apply Forall_singleton. apply (bool_decide_unpack _). vm_compute. reflexivity.
  - simpl. lia.
  - reflexivity.
Defined.


Lemma prebakeMonth_request_bound_witness :
  let r := prebakeMonth (exampleConfig true) 2023 2 (freshWorld alwaysLimited ∅) in
  (length (requests r.2) <= 0 + 4 * 5 * 1)%nat.
Proof.
  cbv zeta.
  apply (prebakeMonth_request_bound (exampleConfig true) 2023 2 (freshWorld alwaysLimited ∅) _
           (prebakeMonth (exampleConfig true) 2023 2 (freshWorld alwaysLimited ∅)).1).
  vm_compute. reflexivity.
Defined.

(** The source [constructor] ends the month with an error, after the
    requests for the source before it. *)
Lemma prebakeMonth_inherited_source_witness :
  let cfg := {| THROTTLE_MS := 800; MAX_RETRIES := 4; SOURCES := ["MODIS_SP"; "constructor"];
                OUTDIR := "./data/firms"; BBOX := "-125,32,-113.5,43";
                retryEmpty := true |} in
  exists e w',
    prebakeMonth cfg 2023 2 (freshWorld (limitedThenRow 0) ∅) = (Thrown e, w') /\
    files w' = ∅.
Proof.
  cbv zeta.
  apply (prebakeMonth_inherited_source
           {| THROTTLE_MS := 800; MAX_RETRIES := 4; SOURCES := ["MODIS_SP"; "constructor"];
              OUTDIR := "./data/firms"; BBOX := "-125,32,-113.5,43"; retryEmpty := true |}
           2023 2 (freshWorld (limitedThenRow 0) ∅) "constructor").
  - apply list_elem_of_further, list_elem_of_here.
  - apply list_elem_of_here.
  - reflexivity.
Defined.

End AssemblerMoreExamples.

Section PlannerMoreExamples.
Import Prebake.
#[local] Existing Instance exampleBuiltins.

(** From November 2023 to February 2024: four months, each with its key. *)
Lemma monthRange_enumerates_witness :
  Driver.key <$> Driver.monthRange 2023 11 2024 2 = ["2023-11"; "2023-12"; "2024-01"; "2024-02"] /\
  (fun r => Driver.monthIndex (Driver.y r) (Driver.m r)) <$> Driver.monthRange 2023 11 2024 2 =
    seqZ (Driver.monthIndex 2023 11) 4.
Proof.
  split; [reflexivity|].
  destruct (monthRange_enumerates 2023 11 2024 2) as [Hindex _]; [lia | lia |].
  exact Hindex.
Defined.

Lemma ymLt_chronological_witness :
  ymLt (monthKeyOf 2023 2) (monthKeyOf 2023 11) = true /\
  ymLt (monthKeyOf 2024 1) (monthKeyOf 2023 11) <> true.
Proof.
  split.
  - apply (ymLt_chronological 2023 2 2023 11); lia.
  - intros Hlt. apply (ymLt_chronological 2024 1 2023 11) in Hlt; lia.
Defined.

(** The month in which a source starts is fetched, though the source starts
    on the 20th. *)
Lemma fetchSource_from_start_month_witness :
  startOf "VIIRS_SNPP_SP" = Some "2012-01-20" /\
  fetchSource (exampleConfig true) (monthKeyOf 2012 1) (planWindows 2012 1 DAY_MAX)
    (JSMap.empty, false) "VIIRS_SNPP_SP" (freshWorld alwaysLimited ∅) =
  forOf (planWindows 2012 1 DAY_MAX) (fetchWindow (exampleConfig true) "VIIRS_SNPP_SP")
    (JSMap.empty, false) (freshWorld alwaysLimited ∅) /\
  fetchSource (exampleConfig true) (monthKeyOf 2011 12) (planWindows 2011 12 DAY_MAX)
    (JSMap.empty, false) "VIIRS_SNPP_SP" (freshWorld alwaysLimited ∅) =
  (Ok (JSMap.empty, false), freshWorld alwaysLimited ∅).
Proof.
  split; [reflexivity|]. split.
  - apply (fetchSource_from_start_month (exampleConfig true) "VIIRS_SNPP_SP" "2012-01-20"
             2012 1 2012 1); try lia; reflexivity.
  - apply (fetchSource_from_start_month (exampleConfig true) "VIIRS_SNPP_SP" "2012-01-20"
             2012 1 2011 12); try lia; reflexivity.
Defined.

(** 34.5 and 34.50001 are written alike, and are closer than 0.0001. *)
Lemma toFixed4_close_witness :
  toFixed4 (Fin (345 # 10)) = "34.5000" /\
  toFixed4 (Fin (3450001 # 100000)) = "34.5000" /\
  (Qabs ((345 # 10) - (3450001 # 100000)) < 1 # 10000)%Q.
Proof.
  split; [vm_compute; reflexivity|]. split; [vm_compute; reflexivity|].
  apply (toFixed4_close (345 # 10) (3450001 # 100000)); vm_compute; reflexivity.
Defined.
End PlannerMoreExamples.
